(** * The PDE tutorial notebook [2-a-pde-model.ipynb]

    The notebook is a straight-line Python program over three libraries
    (pybamm, numpy, matplotlib).  Its code cells are embedded statement by
    statement as a Python syntax tree, and run by an interpreter that threads
    the global namespace, the heap of mutable library objects and the trace of
    library calls through an error monad. *)

From Stdlib Require Import QArith Lqa.
From stdpp Require Import gmap strings list.

Set Warnings "-register-all".

Local Open Scope string_scope.
Local Open Scope list_scope.
Local Open Scope Z_scope.

(** ** pybamm expression trees *)

(** Modelled from the spec: the expression graph of pybamm (symbolic
    scalars, variables and operators), whose source is not part of the
    notebook.  These are the symbols the notebook builds with
    [pybamm.Variable], [pybamm.Scalar], [pybamm.SpatialVariable],
    [pybamm.grad], [pybamm.div] and unary minus ([Variable] is reserved,
    hence [Variable_]). *)

Inductive Symbol : Type :=
| Scalar (value : Q)
| Variable_ (name : string) (domain : list string)
| SpatialVariable (name : string) (domain : list string) (coord_sys : string)
| Negate (child : Symbol)
| Gradient (child : Symbol)
| Divergence (child : Symbol).

(** ** Python syntax *)

Inductive expr : Type :=
| ENum (q : Q)
| EStr (s : string)
| EName (x : string)
| EAttr (e : expr) (a : string)
| ECall (f : expr) (args : list expr) (kwargs : list (string * expr))
| ENeg (e : expr)
| ESubscript (e : expr) (k : expr)
| ETuple (es : list expr)
| EList (es : list expr)
| EDict (items : list (expr * expr))
| ELambda (params : list string) (body : expr)
| EIfExp (c : expr) (a : expr) (b : expr)
| EListComp (elt : expr) (x : string) (iter : expr).

Inductive target : Type :=
| TName (x : string)
| TAttr (e : expr) (a : string)
| TTuple (ts : list target).

Inductive stmt : Type :=
| SImport (module : string) (alias : string)
| SAssign (t : target) (e : expr)
| SExpr (e : expr)
| SIf (c : expr) (body : list stmt) (orelse : list stmt)
| SFor (t : target) (iter : expr) (body : list stmt)
| SWhile (c : expr) (body : list stmt)
| STry (body : list stmt) (handler : list stmt)
| SFunctionDef (name : string) (params : list string) (body : list stmt)
| SClassDef (name : string) (body : list stmt).

(** Integer literals. *)
Definition EInt (n : Z) : expr := ENum (inject_Z n).

(** [m.f(args)] on a module or object held in the name [m]. *)
Definition ECallOn (m f : string) (args : list expr)
    (kwargs : list (string * expr)) : expr :=
  ECall (EAttr (EName m) f) args kwargs.

(** ** The code cells of the notebook, in order *)

Module Notebook.

(** import pybamm / import numpy as np / import matplotlib.pyplot as plt *)
Definition cell_imports : list stmt :=
  [ SImport "pybamm" "pybamm";
    SImport "numpy" "np";
    SImport "matplotlib.pyplot" "plt" ].

(** model = pybamm.BaseModel()
    c = pybamm.Variable("Concentration", domain="negative particle") *)
Definition cell_model : list stmt :=
  [ SAssign (TName "model") (ECallOn "pybamm" "BaseModel" [] []);
    SAssign (TName "c")
      (ECallOn "pybamm" "Variable" [EStr "Concentration"]
         [("domain", EStr "negative particle")]) ].

(** N = -pybamm.grad(c)
    dcdt = -pybamm.div(N)
    model.rhs = {c: dcdt} *)
Definition cell_rhs : list stmt :=
  [ SAssign (TName "N") (ENeg (ECallOn "pybamm" "grad" [EName "c"] []));
    SAssign (TName "dcdt") (ENeg (ECallOn "pybamm" "div" [EName "N"] []));
    SAssign (TAttr (EName "model") "rhs")
      (EDict [(EName "c", EName "dcdt")]) ].

(** model.initial_conditions = {c: pybamm.Scalar(1)}
    lbc = pybamm.Scalar(0)
    rbc = pybamm.Scalar(2)
    model.boundary_conditions =
      {c: {"left": (lbc, "Dirichlet"), "right": (rbc, "Neumann")}} *)
Definition cell_conditions : list stmt :=
  [ SAssign (TAttr (EName "model") "initial_conditions")
      (EDict [(EName "c", ECallOn "pybamm" "Scalar" [EInt 1] [])]);
    SAssign (TName "lbc") (ECallOn "pybamm" "Scalar" [EInt 0] []);
    SAssign (TName "rbc") (ECallOn "pybamm" "Scalar" [EInt 2] []);
    SAssign (TAttr (EName "model") "boundary_conditions")
      (EDict
         [(EName "c",
           EDict
             [(EStr "left", ETuple [EName "lbc"; EStr "Dirichlet"]);
              (EStr "right", ETuple [EName "rbc"; EStr "Neumann"])])]) ].

(** model.variables = {"Concentration": c, "Flux": N} *)
Definition cell_variables : list stmt :=
  [ SAssign (TAttr (EName "model") "variables")
      (EDict [(EStr "Concentration", EName "c"); (EStr "Flux", EName "N")]) ].

(** r = pybamm.SpatialVariable(
        "r", domain=["negative particle"], coord_sys="spherical polar")
    geometry = {"negative particle":
        {"primary": {r: {"min": pybamm.Scalar(0), "max": pybamm.Scalar(1)}}}} *)
Definition cell_geometry : list stmt :=
  [ SAssign (TName "r")
      (ECallOn "pybamm" "SpatialVariable" [EStr "r"]
         [("domain", EList [EStr "negative particle"]);
          ("coord_sys", EStr "spherical polar")]);
    SAssign (TName "geometry")
      (EDict
         [(EStr "negative particle",
           EDict
             [(EStr "primary",
               EDict
                 [(EName "r",
                   EDict
                     [(EStr "min", ECallOn "pybamm" "Scalar" [EInt 0] []);
                      (EStr "max", ECallOn "pybamm" "Scalar" [EInt 1] [])])])])])
  ].

(** submesh_types =
      {"negative particle": pybamm.MeshGenerator(pybamm.Uniform1DSubMesh)}
    var_pts = {r: 20}
    mesh = pybamm.Mesh(geometry, submesh_types, var_pts) *)
Definition cell_mesh : list stmt :=
  [ SAssign (TName "submesh_types")
      (EDict
         [(EStr "negative particle",
           ECallOn "pybamm" "MeshGenerator"
             [EAttr (EName "pybamm") "Uniform1DSubMesh"] [])]);
    SAssign (TName "var_pts") (EDict [(EName "r", EInt 20)]);
    SAssign (TName "mesh")
      (ECallOn "pybamm" "Mesh"
         [EName "geometry"; EName "submesh_types"; EName "var_pts"] []) ].

(** spatial_methods = {"negative particle": pybamm.FiniteVolume()}
    disc = pybamm.Discretisation(mesh, spatial_methods)
    disc.process_model(model); *)
Definition cell_discretise : list stmt :=
  [ SAssign (TName "spatial_methods")
      (EDict
         [(EStr "negative particle", ECallOn "pybamm" "FiniteVolume" [] [])]);
    SAssign (TName "disc")
      (ECallOn "pybamm" "Discretisation"
         [EName "mesh"; EName "spatial_methods"] []);
    SExpr (ECallOn "disc" "process_model" [EName "model"] []) ].

(** solver = pybamm.ScipySolver()
    t = np.linspace(0, 1, 100)
    solution = solver.solve(model, t)
    c = solution["Concentration"]
    fig, (ax1, ax2) = plt.subplots(1, 2, figsize=(13, 4))
    ax1.plot(solution.t, c(solution.t, r=1))
    ax1.set_xlabel("t")
    ax1.set_ylabel("Surface concentration")
    r = np.linspace(0, 1, 100)
    ax2.plot(r, c(t=0.5, r=r))
    ax2.set_xlabel("r")
    ax2.set_ylabel("Concentration at t=0.5")
    plt.tight_layout()
    plt.show() *)
Definition cell_solve : list stmt :=
  [ SAssign (TName "solver") (ECallOn "pybamm" "ScipySolver" [] []);
    SAssign (TName "t") (ECallOn "np" "linspace" [EInt 0; EInt 1; EInt 100] []);
    SAssign (TName "solution")
      (ECallOn "solver" "solve" [EName "model"; EName "t"] []);
    SAssign (TName "c") (ESubscript (EName "solution") (EStr "Concentration"));
    SAssign (TTuple [TName "fig"; TTuple [TName "ax1"; TName "ax2"]])
      (ECallOn "plt" "subplots" [EInt 1; EInt 2]
         [("figsize", ETuple [EInt 13; EInt 4])]);
    SExpr
      (ECallOn "ax1" "plot"
         [EAttr (EName "solution") "t";
          ECall (EName "c") [EAttr (EName "solution") "t"] [("r", EInt 1)]]
         []);
    SExpr (ECallOn "ax1" "set_xlabel" [EStr "t"] []);
    SExpr (ECallOn "ax1" "set_ylabel" [EStr "Surface concentration"] []);
    SAssign (TName "r") (ECallOn "np" "linspace" [EInt 0; EInt 1; EInt 100] []);
    SExpr
      (ECallOn "ax2" "plot"
         [EName "r";
          ECall (EName "c") [] [("t", ENum (1 # 2)); ("r", EName "r")]]
         []);
    SExpr (ECallOn "ax2" "set_xlabel" [EStr "r"] []);
    SExpr (ECallOn "ax2" "set_ylabel" [EStr "Concentration at t=0.5"] []);
    SExpr (ECallOn "plt" "tight_layout" [] []);
    SExpr (ECallOn "plt" "show" [] []) ].

(** The cells that set the model up, before any geometry is defined. *)
Definition setup : list stmt :=
  cell_imports ++ cell_model ++ cell_rhs ++ cell_conditions ++ cell_variables.

(** The cells up to and including the discretisation pass. *)
Definition through_discretisation : list stmt :=
  setup ++ cell_geometry ++ cell_mesh ++ cell_discretise.

(** The whole program. *)
Definition program : list stmt := through_discretisation ++ cell_solve.

(** The problem the first markdown cell states:
    dc/dr = 0 at r = 0, dc/dr = 2 at r = 1, c = 1 at t = 0. *)
Inductive bc_type : Type := Dirichlet | Neumann.

Record stated_problem : Type := {
  stated_left : Q * bc_type;
  stated_right : Q * bc_type;
  stated_initial : Q
}.

Definition problem_statement : stated_problem :=
  {| stated_left := (inject_Z 0, Neumann);
     stated_right := (inject_Z 2, Neumann);
     stated_initial := inject_Z 1 |}.

End Notebook.

(** ** Run-time values *)

Inductive value : Type :=
| VNone
| VNum (q : Q)
| VStr (s : string)
| VTuple (vs : list value)
| VList (vs : list value)
| VDict (items : list (value * value))
| VModule (m : string)
| VLib (m : string) (name : string)
| VSym (s : Symbol)
| VRef (l : nat)
| VArray (xs : list Q)
| VAttr (v : value) (a : string)
| VCall (f : value) (args : list value) (kwargs : list (string * value))
| VItem (v : value) (i : nat).

(** [VModule m] is an imported module and [VLib m x] its member [m.x];
    [VRef l] points to a mutable library object on the heap; [VArray] is a
    numpy array of (ideal, rational) numbers.  What a library call returns
    without the notebook ever looking inside is kept as the call itself:
    [VCall f args kwargs], with [VAttr v a] for [v.a] and [VItem v i] for the
    [i]-th component when such a result is unpacked. *)

Record object : Type := {
  obj_class : string;
  obj_attrs : gmap string value
}.

Record call : Type := {
  callee : value;
  args : list value;
  kwargs : list (string * value)
}.

Inductive result : Type :=
| Returned (v : value)
| Threw (x : string).

(** One library call: what was called, the namespace and heap at the moment
    of the call, and how the call ended. *)
Record event : Type := {
  ev_call : call;
  ev_env : gmap string value;
  ev_heap : list object;
  ev_result : result
}.

Record state : Type := {
  env : gmap string value;
  heap : list object;
  trace : list event
}.

Definition initial : state := {| env := ∅; heap := []; trace := [] |}.

(** ** numpy.linspace over the rationals *)

(** Modelled from the spec: numpy's [linspace], which is not part of the
    notebook, on ideal numbers.  [num] samples from [start] to [stop], end
    point included: [start + i * step] with
    [step = (stop - start) / (num - 1)]. *)

Definition linspace (start stop : Q) (num : nat) : list Q :=
  match num with
  | O => []
  | S O => [start]
  | S (S _) =>
      let step := ((stop - start) / inject_Z (Z.of_nat (num - 1)))%Q in
      map (fun i => (start + inject_Z (Z.of_nat i) * step)%Q) (seq 0 num)
  end.

(** ** The library, as far as the notebook touches it

    Two things stay open: whether a given call raises, and what the
    discretisation pass writes into the model it is handed. *)

Record Library : Type := {
  raises : nat -> call -> option string;
  discretise : value -> object -> object
}.

(** The [domain] keyword: one name or a list of names. *)
Fixpoint domain_names (vs : list value) : option (list string) :=
  match vs with
  | [] => Some []
  | VStr s :: vs' => cons s <$> domain_names vs'
  | _ => None
  end.

Definition domain_of (v : value) : option (list string) :=
  match v with
  | VStr s => Some [s]
  | VList vs => domain_names vs
  | _ => None
  end.

(** A whole, non-negative number as a count. *)
Definition count_of (q : Q) : option nat :=
  if ((Qden q =? 1)%positive && (0 <=? Qnum q))%bool
  then Some (Z.to_nat (Qnum q)) else None.

Definition new_model : object :=
  {| obj_class := "BaseModel"; obj_attrs := ∅ |}.

Definition set_attr (a : string) (v : value) (o : object) : object :=
  {| obj_class := obj_class o; obj_attrs := <[a := v]> (obj_attrs o) |}.

(** The members of pybamm and numpy whose results the notebook's later
    statements depend on. *)
Inductive member : Type :=
| MBaseModel | MVariable | MSpatialVariable | MScalar | MGrad | MDiv
| MLinspace | MOther.

Definition member_of (m x : string) : member :=
  if String.eqb m "pybamm" then
    if String.eqb x "BaseModel" then MBaseModel
    else if String.eqb x "Variable" then MVariable
    else if String.eqb x "SpatialVariable" then MSpatialVariable
    else if String.eqb x "Scalar" then MScalar
    else if String.eqb x "grad" then MGrad
    else if String.eqb x "div" then MDiv
    else MOther
  else if String.eqb m "numpy" then
    if String.eqb x "linspace" then MLinspace else MOther
  else MOther.

(** Modelled from the spec: the constructors of pybamm's expression graph
    and model object, and numpy's [linspace]; their source is not part of
    the notebook.  A constructor of a symbol returns the tree of its
    arguments, [BaseModel()] a fresh empty object on the heap; any other
    member returns a value the notebook never looks into. *)
Definition apply_member (k : member) (c : call) (h : list object)
    : option (value * list object) :=
  match k, args c, kwargs c with
  | MBaseModel, [], [] => Some (VRef (length h), h ++ [new_model])
  | MVariable, [VStr n], [(kw, d)] =>
      if String.eqb kw "domain"
      then ds ← domain_of d; Some (VSym (Variable_ n ds), h)
      else None
  | MSpatialVariable, [VStr n], [(kw1, d); (kw2, VStr cs)] =>
      if (String.eqb kw1 "domain" && String.eqb kw2 "coord_sys")%bool
      then ds ← domain_of d; Some (VSym (SpatialVariable n ds cs), h)
      else None
  | MScalar, [VNum q], [] => Some (VSym (Scalar q), h)
  | MGrad, [VSym s], [] => Some (VSym (Gradient s), h)
  | MDiv, [VSym s], [] => Some (VSym (Divergence s), h)
  | MLinspace, [VNum a; VNum b; VNum n], [] =>
      k ← count_of n; Some (VArray (linspace a b k), h)
  | MOther, _, _ => Some (VCall (callee c) (args c) (kwargs c), h)
  | _, _, _ => None
  end.

(** Modelled from the spec: what a library call that does not raise returns
    and does to the heap; the library's source is not part of the notebook.
    Unary minus on a symbol builds its negation, storing an attribute on a
    heap object updates it, and the discretisation pass replaces the model
    it is handed by what [disc] makes of it.  [None] where the call has a
    shape this model does not cover. *)
Definition lib_apply (disc : value -> object -> object) (c : call)
    (h : list object) : option (value * list object) :=
  match callee c with
  | VLib m x => apply_member (member_of m x) c h
  | VAttr (VSym s) a =>
      if String.eqb a "__neg__" then
        match args c, kwargs c with
        | [], [] => Some (VSym (Negate s), h)
        | _, _ => None
        end
      else Some (VCall (callee c) (args c) (kwargs c), h)
  | VAttr (VRef l) a =>
      if String.eqb a "__setattr__" then
        match args c, kwargs c with
        | [VStr x; v], [] => o ← h !! l; Some (VNone, <[l := set_attr x v o]> h)
        | _, _ => None
        end
      else Some (VCall (callee c) (args c) (kwargs c), h)
  | VAttr d a =>
      if String.eqb a "process_model" then
        match args c, kwargs c with
        | [VRef l], [] =>
            o ← h !! l;
            Some (VCall (callee c) (args c) (kwargs c), <[l := disc d o]> h)
        | _, _ => None
        end
      else Some (VCall (callee c) (args c) (kwargs c), h)
  | VCall _ _ _ | VItem _ _ | VArray _ | VSym _ | VRef _ =>
      Some (VCall (callee c) (args c) (kwargs c), h)
  | VNone | VNum _ | VStr _ | VTuple _ | VList _ | VDict _ | VModule _ => None
  end.

(** ** The interpreter monad: state passing with two ways to stop

    [Raised x st]: a library call raised [x] and nothing caught it; [st] is
    the state at that call.  [Fault]: the program left the fragment this
    interpreter executes (an unbound name, a construct without semantics
    here, a library call of an uncovered shape). *)

Inductive outcome (A : Type) : Type :=
| Done (a : A) (st : state)
| Raised (x : string) (st : state)
| Fault (msg : string) (st : state).

Arguments Done {A} a st.
Arguments Raised {A} x st.
Arguments Fault {A} msg st.

Definition M (A : Type) : Type := state -> outcome A.

Definition ret {A : Type} (a : A) : M A := fun st => Done a st.

Definition bind {A B : Type} (m : M A) (k : A -> M B) : M B :=
  fun st =>
    match m st with
    | Done a st' => k a st'
    | Raised x st' => Raised x st'
    | Fault msg st' => Fault msg st'
    end.

Definition fault {A : Type} (msg : string) : M A := fun st => Fault msg st.

Declare Scope interp_scope.
Delimit Scope interp_scope with interp.
Notation "x <~ m ; k" := (bind m (fun x => k))
  (at level 20, m at level 100, k at level 200, only parsing) : interp_scope.
Notation "m ;;; k" := (bind m (fun _ => k))
  (at level 100, k at level 200, right associativity, only parsing)
  : interp_scope.

Local Open Scope interp_scope.

Section Interpreter.

Variable lib : Library.

(** A library call is where the run meets the library: the call is logged
    with the heap it saw; it either raises, as the library decides, or
    returns and updates the heap. *)
Definition lib_call (c : call) : M value :=
  fun st =>
    match raises lib (length (trace st)) c with
    | Some x =>
        Raised x
          {| env := env st; heap := heap st;
             trace := trace st ++
               [{| ev_call := c; ev_env := env st; ev_heap := heap st;
                   ev_result := Threw x |}] |}
    | None =>
        match lib_apply (discretise lib) c (heap st) with
        | Some (v, h') =>
            Done v
              {| env := env st; heap := h';
                 trace := trace st ++
                   [{| ev_call := c; ev_env := env st; ev_heap := heap st;
                       ev_result := Returned v |}] |}
        | None => Fault "library call outside the model" st
        end
    end.

Definition method (v : value) (a : string) (vs : list value) : M value :=
  lib_call {| callee := VAttr v a; args := vs; kwargs := [] |}.

Definition lookup_name (x : string) : M value :=
  fun st =>
    match env st !! x with
    | Some v => Done v st
    | None => Fault ("name not defined: " +:+ x) st
    end.

Definition bind_name (x : string) (v : value) : M unit :=
  fun st =>
    Done tt {| env := <[x := v]> (env st); heap := heap st; trace := trace st |}.

(** [v.a]: a member of a module, a stored attribute of a heap object, or an
    attribute of a library value. *)
Definition get_attr (v : value) (a : string) : M value :=
  match v with
  | VModule m => ret (VLib m a)
  | VRef l =>
      fun st =>
        match o ← heap st !! l; obj_attrs o !! a with
        | Some w => Done w st
        | None => Fault ("no attribute: " +:+ a) st
        end
  | VLib _ _ | VSym _ | VArray _ | VAttr _ _ | VCall _ _ _ | VItem _ _ =>
      ret (VAttr v a)
  | VNone | VNum _ | VStr _ | VTuple _ | VList _ | VDict _ =>
      fault "attribute of a built-in value"
  end.

(** [f(args, kwargs)]: only library values are callable here. *)
Definition apply_value (f : value) (vs : list value)
    (kvs : list (string * value)) : M value :=
  match f with
  | VLib _ _ | VAttr _ _ | VCall _ _ _ | VItem _ _ | VSym _ | VRef _
  | VArray _ =>
      lib_call {| callee := f; args := vs; kwargs := kvs |}
  | VNone | VNum _ | VStr _ | VTuple _ | VList _ | VDict _ | VModule _ =>
      fault "not callable"
  end.

(** [-v]: arithmetic on a number, the library's [__neg__] on its values. *)
Definition negate (v : value) : M value :=
  match v with
  | VNum q => ret (VNum (- q)%Q)
  | VSym _ | VArray _ | VAttr _ _ | VCall _ _ _ | VItem _ _ | VRef _ =>
      method v "__neg__" []
  | VNone | VStr _ | VTuple _ | VList _ | VDict _ | VModule _ | VLib _ _ =>
      fault "bad operand for unary minus"
  end.

(** [v[k]] on a library value is its [__getitem__]. *)
Definition subscript (v k : value) : M value :=
  match v with
  | VSym _ | VArray _ | VAttr _ _ | VCall _ _ _ | VItem _ _ | VRef _ =>
      method v "__getitem__" [k]
  | VNone | VNum _ | VStr _ | VTuple _ | VList _ | VDict _ | VModule _
  | VLib _ _ =>
      fault "subscript of a built-in value"
  end.

(** Arguments, keyword arguments and dictionary items are evaluated left to
    right by the evaluator [ev] of single expressions. *)
Definition eval_list (ev : expr -> M value) : list expr -> M (list value) :=
  fix go (l : list expr) : M (list value) :=
    match l with
    | [] => ret []
    | e :: l' => v <~ ev e; vs <~ go l'; ret (v :: vs)
    end.

Definition eval_kwargs (ev : expr -> M value)
    : list (string * expr) -> M (list (string * value)) :=
  fix go (l : list (string * expr)) : M (list (string * value)) :=
    match l with
    | [] => ret []
    | (k, e) :: l' => v <~ ev e; kvs <~ go l'; ret ((k, v) :: kvs)
    end.

Definition eval_items (ev : expr -> M value)
    : list (expr * expr) -> M (list (value * value)) :=
  fix go (l : list (expr * expr)) : M (list (value * value)) :=
    match l with
    | [] => ret []
    | (k, e) :: l' =>
        kv <~ ev k; v <~ ev e; kvs <~ go l'; ret ((kv, v) :: kvs)
    end.

Fixpoint eval (e : expr) : M value :=
  match e with
  | ENum q => ret (VNum q)
  | EStr s => ret (VStr s)
  | EName x => lookup_name x
  | EAttr e1 a => v <~ eval e1; get_attr v a
  | ECall f es kes =>
      fv <~ eval f;
      vs <~ eval_list eval es;
      kvs <~ eval_kwargs eval kes;
      apply_value fv vs kvs
  | ENeg e1 => v <~ eval e1; negate v
  | ESubscript e1 k => v <~ eval e1; kv <~ eval k; subscript v kv
  | ETuple es => vs <~ eval_list eval es; ret (VTuple vs)
  | EList es => vs <~ eval_list eval es; ret (VList vs)
  | EDict items => kvs <~ eval_items eval items; ret (VDict kvs)
  | ELambda _ _ => fault "lambda"
  | EIfExp _ _ _ => fault "conditional expression"
  | EListComp _ _ _ => fault "comprehension"
  end.

(** The components a value is unpacked into by a tuple target of [n] names. *)
Definition unpack (v : value) (n : nat) : option (list value) :=
  match v with
  | VTuple vs | VList vs => if Nat.eqb (length vs) n then Some vs else None
  | VCall _ _ _ | VItem _ _ | VAttr _ _ => Some (map (VItem v) (seq 0 n))
  | _ => None
  end.

(** Assignment: a name is rebound in the namespace; an attribute of a heap
    object is stored through the object's [__setattr__]; a tuple target
    takes the components one by one. *)
Definition assign_each (asg : target -> value -> M unit)
    : list target -> list value -> M unit :=
  fix go (l : list target) (ws : list value) : M unit :=
    match l, ws with
    | [], _ => ret tt
    | t :: l', w :: ws' => asg t w ;;; go l' ws'
    | _ :: _, [] => fault "not enough values to unpack"
    end.

Fixpoint assign (t : target) (v : value) : M unit :=
  match t with
  | TName x => bind_name x v
  | TAttr e a =>
      o <~ eval e;
      match o with
      | VRef l => method (VRef l) "__setattr__" [VStr a; v] ;;; ret tt
      | _ => fault "attribute store on a value that is not an object"
      end
  | TTuple ts =>
      match unpack v (length ts) with
      | Some vs => assign_each assign ts vs
      | None => fault "cannot unpack"
      end
  end.

(** Statements.  [try] runs its handler when the body raises; the other
    compound statements have no semantics here. *)
Definition exec_block (ex : stmt -> M unit) : list stmt -> M unit :=
  fix go (l : list stmt) : M unit :=
    match l with
    | [] => ret tt
    | s :: l' => ex s ;;; go l'
    end.

Fixpoint exec (s : stmt) : M unit :=
  match s with
  | SImport m a => bind_name a (VModule m)
  | SAssign t e => v <~ eval e; assign t v
  | SExpr e => eval e ;;; ret tt
  | STry body handler =>
      fun st =>
        match exec_block exec body st with
        | Raised _ st' => exec_block exec handler st'
        | o => o
        end
  | SIf _ _ _ => fault "if"
  | SFor _ _ _ => fault "for"
  | SWhile _ _ => fault "while"
  | SFunctionDef _ _ _ => fault "def"
  | SClassDef _ _ => fault "class"
  end.

Definition exec_all (p : list stmt) : M unit := exec_block exec p.

Definition run (p : list stmt) : outcome unit := exec_all p initial.

End Interpreter.

(** The library in which no call raises. *)
Definition quiet (disc : value -> object -> object) : Library :=
  {| raises := fun _ _ => None; discretise := disc |}.

Definition final_env (o : outcome unit) : gmap string value :=
  match o with Done _ st | Raised _ st | Fault _ st => env st end.
Definition final_heap (o : outcome unit) : list object :=
  match o with Done _ st | Raised _ st | Fault _ st => heap st end.
Definition final_trace (o : outcome unit) : list event :=
  match o with Done _ st | Raised _ st | Fault _ st => trace st end.
Definition completed (o : outcome unit) : bool :=
  match o with Done _ _ => true | _ => false end.
Definition stopped_by (o : outcome unit) : option string :=
  match o with Raised x _ => Some x | _ => None end.


(** ** What the notebook's names are bound to *)

Module Bound.

Definition c : Symbol := Variable_ "Concentration" ["negative particle"].
Definition N : Symbol := Negate (Gradient c).
Definition dcdt : Symbol := Negate (Divergence N).
Definition lbc : Symbol := Scalar (inject_Z 0).
Definition rbc : Symbol := Scalar (inject_Z 2).
Definition r : Symbol :=
  SpatialVariable "r" ["negative particle"] "spherical polar".

Definition rhs : value := VDict [(VSym c, VSym dcdt)].
Definition initial_conditions : value :=
  VDict [(VSym c, VSym (Scalar (inject_Z 1)))].
Definition boundary_conditions : value :=
  VDict
    [(VSym c,
      VDict
        [(VStr "left", VTuple [VSym lbc; VStr "Dirichlet"]);
         (VStr "right", VTuple [VSym rbc; VStr "Neumann"])])].
Definition variables : value :=
  VDict [(VStr "Concentration", VSym c); (VStr "Flux", VSym N)].

(** The model object once the set-up cells have run. *)
Definition model_object : object :=
  set_attr "variables" variables
    (set_attr "boundary_conditions" boundary_conditions
       (set_attr "initial_conditions" initial_conditions
          (set_attr "rhs" rhs new_model))).

Definition geometry : value :=
  VDict
    [(VStr "negative particle",
      VDict
        [(VStr "primary",
          VDict
            [(VSym r,
              VDict
                [(VStr "min", VSym (Scalar (inject_Z 0)));
                 (VStr "max", VSym (Scalar (inject_Z 1)))])])])].
Definition submesh_types : value :=
  VDict
    [(VStr "negative particle",
      VCall (VLib "pybamm" "MeshGenerator")
        [VLib "pybamm" "Uniform1DSubMesh"] [])].
Definition var_pts : value := VDict [(VSym r, VNum (inject_Z 20))].
Definition mesh : value :=
  VCall (VLib "pybamm" "Mesh") [geometry; submesh_types; var_pts] [].

Definition spatial_methods : value :=
  VDict [(VStr "negative particle", VCall (VLib "pybamm" "FiniteVolume") [] [])].
Definition disc : value :=
  VCall (VLib "pybamm" "Discretisation") [mesh; spatial_methods] [].

Definition solver : value := VCall (VLib "pybamm" "ScipySolver") [] [].
Definition t : value := VArray (linspace (inject_Z 0) (inject_Z 1) 100).
Definition solution : value := VCall (VAttr solver "solve") [VRef 0; t] [].

(** [solution["Concentration"]], the value [c] is rebound to. *)
Definition concentration : value :=
  VCall (VAttr solution "__getitem__") [VStr "Concentration"] [].

Definition subplots : value :=
  VCall (VLib "matplotlib.pyplot" "subplots")
    [VNum (inject_Z 1); VNum (inject_Z 2)]
    [("figsize", VTuple [VNum (inject_Z 13); VNum (inject_Z 4)])].
Definition ax1 : value := VItem (VItem subplots 1) 0.
Definition ax2 : value := VItem (VItem subplots 1) 1.

End Bound.

(** The run of the set-up cells and of the whole notebook against a library
    in which nothing raises. *)
Definition after_setup (d : value -> object -> object) : outcome unit :=
  run (quiet d) Notebook.setup.
Definition finished (d : value -> object -> object) : outcome unit :=
  run (quiet d) Notebook.program.

(** The differences between neighbouring samples. *)
Definition gaps (xs : list Q) : list Q :=
  zip_with Qminus (tail xs) xs.

(** The boundary conditions of the problem statement, written as the
    dictionary the notebook's text says [model.boundary_conditions] takes:
    [{side: (value, type)}] per variable. *)
Definition bc_name (k : Notebook.bc_type) : string :=
  match k with
  | Notebook.Dirichlet => "Dirichlet"
  | Notebook.Neumann => "Neumann"
  end.

Definition bc_entry (side : string) (b : Q * Notebook.bc_type)
    : value * value :=
  (VStr side, VTuple [VSym (Scalar b.1); VStr (bc_name b.2)]).

Definition stated_boundary_conditions (p : Notebook.stated_problem) : value :=
  VDict
    [(VSym Bound.c,
      VDict
        [bc_entry "left" (Notebook.stated_left p);
         bc_entry "right" (Notebook.stated_right p)])].

(** Attribute [a] of the object at [l]. *)
Definition attr_at (h : list object) (l : nat) (a : string) : option value :=
  o ← h !! l; obj_attrs o !! a.

(** The side [side] of the conditions a boundary-conditions dictionary holds
    for its first variable. *)
Definition side_of (bcs : value) (side : string) : option value :=
  match bcs with
  | VDict [(_, VDict sides)] =>
      snd <$> find (fun kv => match kv.1 with
                              | VStr s => String.eqb s side
                              | _ => false
                              end) sides
  | _ => None
  end.

(** ** Syntax analyses *)

Fixpoint subexprs (e : expr) : list expr :=
  e ::
  match e with
  | ENum _ | EStr _ | EName _ => []
  | EAttr e1 _ | ENeg e1 => subexprs e1
  | ECall f es kes =>
      subexprs f ++ flat_map subexprs es
        ++ flat_map (fun ke => subexprs ke.2) kes
  | ESubscript e1 k => subexprs e1 ++ subexprs k
  | ETuple es | EList es => flat_map subexprs es
  | EDict items => flat_map (fun it => subexprs it.1 ++ subexprs it.2) items
  | ELambda _ b => subexprs b
  | EIfExp c a b => subexprs c ++ subexprs a ++ subexprs b
  | EListComp elt _ iter => subexprs elt ++ subexprs iter
  end.

Fixpoint target_exprs (t : target) : list expr :=
  match t with
  | TName _ => []
  | TAttr e _ => [e]
  | TTuple ts => flat_map target_exprs ts
  end.

Fixpoint target_names (t : target) : list string :=
  match t with
  | TName x => [x]
  | TAttr _ _ => []
  | TTuple ts => flat_map target_names ts
  end.

Fixpoint substmts (s : stmt) : list stmt :=
  s ::
  match s with
  | SImport _ _ | SAssign _ _ | SExpr _ => []
  | SIf _ b o => flat_map substmts b ++ flat_map substmts o
  | SFor _ _ b | SWhile _ b => flat_map substmts b
  | STry b h => flat_map substmts b ++ flat_map substmts h
  | SFunctionDef _ _ b | SClassDef _ b => flat_map substmts b
  end.

Definition stmt_exprs (s : stmt) : list expr :=
  match s with
  | SImport _ _ | STry _ _ | SFunctionDef _ _ _ | SClassDef _ _ => []
  | SAssign t e => target_exprs t ++ [e]
  | SExpr e => [e]
  | SIf c _ _ | SWhile c _ => [c]
  | SFor t iter _ => target_exprs t ++ [iter]
  end.

(** Every statement of a program, nested ones included, and every
    expression in them, subexpressions included. *)
Definition statements (p : list stmt) : list stmt := flat_map substmts p.
Definition expressions (p : list stmt) : list expr :=
  flat_map subexprs (flat_map stmt_exprs (statements p)).

Definition is_try (s : stmt) : bool :=
  match s with STry _ _ => true | _ => false end.
Definition is_definition (s : stmt) : bool :=
  match s with SFunctionDef _ _ _ | SClassDef _ _ => true | _ => false end.
Definition is_loop (s : stmt) : bool :=
  match s with SFor _ _ _ | SWhile _ _ => true | _ => false end.
Definition is_conditional (s : stmt) : bool :=
  match s with SIf _ _ _ => true | _ => false end.
Definition is_simple (s : stmt) : bool :=
  match s with SImport _ _ | SAssign _ _ | SExpr _ => true | _ => false end.

(** Expressions that define a function, loop or branch. *)
Definition is_control_expr (e : expr) : bool :=
  match e with
  | ELambda _ _ | EIfExp _ _ _ | EListComp _ _ _ => true
  | _ => false
  end.

(** The number of [try] statements anywhere in a program. *)
Definition handlers (p : list stmt) : nat :=
  length (filter (fun s => is_try s = true) (statements p)).

(** Statements that bind the name [x]. *)
Definition binds (x : string) (s : stmt) : bool :=
  match s with
  | SImport _ a => String.eqb a x
  | SAssign t _ | SFor t _ _ => existsb (String.eqb x) (target_names t)
  | SFunctionDef n _ _ | SClassDef n _ => String.eqb n x
  | _ => false
  end.

(** Statements in which the method [a] is called. *)
Definition calls_method (a : string) (s : stmt) : bool :=
  existsb
    (fun e => match e with
              | ECall (EAttr _ a') _ _ => String.eqb a a'
              | _ => false
              end)
    (flat_map subexprs (stmt_exprs s)).

(** ** Where a value comes from, and what kind of step a call is *)

Fixpoint root_module (v : value) : option string :=
  match v with
  | VLib m _ => Some m
  | VAttr w _ | VItem w _ | VCall w _ _ => root_module w
  | VSym _ | VRef _ => Some "pybamm"
  | VArray _ => Some "numpy"
  | VNone | VNum _ | VStr _ | VTuple _ | VList _ | VDict _ | VModule _ => None
  end.

Definition libraries : list string := ["pybamm"; "numpy"; "matplotlib.pyplot"].

Definition from_library (v : value) : bool :=
  match root_module v with
  | Some m => existsb (String.eqb m) libraries
  | None => false
  end.

Inductive step : Type :=
| Construct | BuildMesh | SetUpDiscretisation | ProcessModel
| MakeSolver | Integrate | Numpy | PostProcess | Plot.

Definition step_eqb (a b : step) : bool :=
  match a, b with
  | Construct, Construct | BuildMesh, BuildMesh
  | SetUpDiscretisation, SetUpDiscretisation | ProcessModel, ProcessModel
  | MakeSolver, MakeSolver | Integrate, Integrate | Numpy, Numpy
  | PostProcess, PostProcess | Plot, Plot => true
  | _, _ => false
  end.

Definition plots (v : value) : bool :=
  match root_module v with
  | Some m => String.eqb m "matplotlib.pyplot"
  | None => false
  end.

Definition pybamm_step (x : string) : step :=
  if existsb (String.eqb x) ["MeshGenerator"; "Mesh"] then BuildMesh
  else if existsb (String.eqb x) ["FiniteVolume"; "Discretisation"]
  then SetUpDiscretisation
  else if String.eqb x "ScipySolver" then MakeSolver
  else Construct.

Definition step_of (ev : event) : step :=
  match callee (ev_call ev) with
  | VLib m x =>
      if String.eqb m "matplotlib.pyplot" then Plot
      else if String.eqb m "numpy" then Numpy
      else pybamm_step x
  | VAttr v a =>
      if existsb (String.eqb a) ["__neg__"; "__setattr__"] then Construct
      else if String.eqb a "process_model" then ProcessModel
      else if String.eqb a "solve" then Integrate
      else if plots v then Plot else PostProcess
  | v => if plots v then Plot else PostProcess
  end.

(** The positions in a trace at which a step of kind [k] happens. *)
Definition positions (k : step) (tr : list event) : list nat :=
  map fst
    (filter (fun ie => step_eqb (step_of ie.2) k = true)
       (zip (seq 0 (length tr)) tr)).

Definition is_plot_or_postprocess (k : step) : bool :=
  match k with Plot | PostProcess | Numpy => true | _ => false end.

(** ** Propagation of exceptions *)

Definition returned (ev : event) : bool :=
  match ev_result ev with Returned _ => true | Threw _ => false end.

(** No call in the trace raised. *)
Definition clean (tr : list event) : bool := forallb returned tr.

(** A run ends well-accounted: if it was not stopped by an exception, no
    call raised; if it was, the exception is the one the last call raised on
    the library's decision, no earlier call raised, and the namespace and
    heap are those of the moment of that call. *)
Definition propagated {A : Type} (lib : Library) (o : outcome A) : Prop :=
  match o with
  | Done _ st | Fault _ st => clean (trace st) = true
  | Raised x st =>
      exists pre c,
        trace st = pre ++ [{| ev_call := c; ev_env := env st;
                              ev_heap := heap st; ev_result := Threw x |}]
        /\ clean pre = true
        /\ raises lib (length pre) c = Some x
  end.

(** [ml] is [mq] run against a library that may raise: from a state with a
    clean trace it ends well-accounted, and where [mq] finishes it either
    finishes in the same way or is stopped by an exception. *)
Definition follows {A : Type} (lib : Library) (mq ml : M A) : Prop :=
  forall st, clean (trace st) = true ->
    propagated lib (ml st)
    /\ (forall a st', mq st = Done a st' ->
          ml st = Done a st' \/ exists x st'', ml st = Raised x st'').

(** The library in which the member [x] of module [m] raises [err] when
    called, and nothing else does. *)
Definition raising (m x err : string) (d : value -> object -> object)
    : Library :=
  {| raises := fun _ c =>
       match callee c with
       | VLib m' x' =>
           if (String.eqb m m' && String.eqb x x')%bool then Some err else None
       | _ => None
       end;
     discretise := d |}.

(** The notebook wrapped in a [try] with an empty handler. *)
Definition guarded_program : list stmt := [STry Notebook.program []].

(** Steps that never touch the trace and never raise. *)
Definition silent {A : Type} (m : M A) : Prop :=
  forall st,
    match m st with
    | Done _ st' | Fault _ st' => trace st' = trace st
    | Raised _ _ => False
    end.

(** ** The meaning of a symbol

    Symbols denote fields on the domain.  The fields, the constants, the
    named unknowns and the three operators are those of whatever
    discretisation or function space the model is solved in. *)

Section Denotation.

Variable F : Type.
Variable const : Q -> F.
Variable unknown : string -> F.
Variable neg : F -> F.
Variable grad : F -> F.
Variable div : F -> F.

Fixpoint denote (s : Symbol) : F :=
  match s with
  | Scalar q => const q
  | Variable_ n _ => unknown n
  | SpatialVariable n _ _ => unknown n
  | Negate a => neg (denote a)
  | Gradient a => grad (denote a)
  | Divergence a => div (denote a)
  end.

End Denotation.

(** A concrete space of fields: polynomials in one variable with integer
    coefficients, lowest degree first, with the derivative as gradient and
    as divergence. *)
Module Poly.

Fixpoint scale_from (k : Z) (p : list Z) : list Z :=
  match p with
  | [] => []
  | a :: p' => k * a :: scale_from (k + 1) p'
  end.

Definition deriv (p : list Z) : list Z :=
  match p with
  | [] => []
  | _ :: p' => scale_from 1 p'
  end.

Definition neg (p : list Z) : list Z := map Z.opp p.

Definition const (q : Q) : list Z := [Qnum q / Z.pos (Qden q)].

Definition unknown (n : string) : list Z := [0; 0; 1].

Definition denote : Symbol -> list Z :=
  denote (list Z) const unknown neg deriv deriv.

End Poly.

(** ** Runs cut short by an exception *)

Definition trace_of {A : Type} (o : outcome A) : list event :=
  match o with Done _ st | Raised _ st | Fault _ st => trace st end.

(** The call [ev], ending in the exception [x] instead. *)
Definition threw_at (x : string) (ev : event) : event :=
  {| ev_call := ev_call ev; ev_env := ev_env ev; ev_heap := ev_heap ev;
     ev_result := Threw x |}.

(** [o] stopped at a call the uninterrupted run, which went from [st] to
    [st'], made after [st]: up to that call the trace is the same, and the
    namespace and heap are those the uninterrupted run had there. *)
Definition cut_short {A : Type} (lib : Library) (st st' : state)
    (o : outcome A) : Prop :=
  match o with
  | Raised x st'' =>
      exists k ev,
        (length (trace st) <= k)%nat
        /\ trace st' !! k = Some ev
        /\ trace st'' = take k (trace st') ++ [threw_at x ev]
        /\ env st'' = ev_env ev
        /\ heap st'' = ev_heap ev
        /\ raises lib k (ev_call ev) = Some x
  | Done _ _ | Fault _ _ => False
  end.

(** Where the computation against the quiet library finishes, it has only
    added to the trace, and the computation against [lib] finishes in the
    same way or is the same run cut short. *)
Definition shadows {A : Type} (lib : Library) (mq ml : M A) : Prop :=
  forall st a st', mq st = Done a st' ->
    (exists ext, trace st' = trace st ++ ext)
    /\ (ml st = Done a st' \/ cut_short lib st st' (ml st)).

(** Every call in the trace ended the way the library decided for a call
    at that position. *)
Definition answers (lib : Library) (tr : list event) : Prop :=
  forall k ev, tr !! k = Some ev ->
    raises lib k (ev_call ev)
    = match ev_result ev with Returned _ => None | Threw x => Some x end.

Definition keeps_answers {A : Type} (lib : Library) (mq ml : M A) : Prop :=
  forall st, answers lib (trace st) -> answers lib (trace_of (ml st)).

(** The first call of a trace, counted from position [k], that the library
    makes raise. *)
Fixpoint first_raise_from (lib : Library) (k : nat) (tr : list event)
    : option (nat * string) :=
  match tr with
  | [] => None
  | ev :: tr' =>
      match raises lib k (ev_call ev) with
      | Some x => Some (k, x)
      | None => first_raise_from lib (S k) tr'
      end
  end.

Definition first_raise (lib : Library) (tr : list event)
    : option (nat * string) :=
  first_raise_from lib 0 tr.

(** The steps of the uninterrupted run, in order. *)
Definition pipeline : list step :=
  replicate 16 Construct
  ++ [BuildMesh; BuildMesh; SetUpDiscretisation; SetUpDiscretisation;
      ProcessModel; MakeSolver; Numpy; Integrate; PostProcess;
      Plot; PostProcess; Plot; Plot; Plot; Numpy; PostProcess;
      Plot; Plot; Plot; Plot; Plot].

(** ** Reading dictionaries and symbols back *)

(** The keys of a dictionary, in order. *)
Definition dict_keys (v : value) : list value :=
  match v with
  | VDict items => map fst items
  | _ => []
  end.

(** The entry of a dictionary under a string key. *)
Definition dict_get (k : string) (v : value) : option value :=
  match v with
  | VDict items =>
      snd <$> find (fun kv => match kv.1 with
                              | VStr s => String.eqb s k
                              | _ => false
                              end) items
  | _ => None
  end.

(** The domain a variable was declared on. *)
Definition declared_domain (s : Symbol) : list string :=
  match s with
  | Variable_ _ d | SpatialVariable _ d _ => d
  | Scalar _ | Negate _ | Gradient _ | Divergence _ => []
  end.

Definition as_symbol (v : value) : option Symbol :=
  match v with
  | VSym s => Some s
  | _ => None
  end.

Definition declared_name (s : Symbol) : option string :=
  match s with
  | Variable_ n _ | SpatialVariable n _ _ => Some n
  | Scalar _ | Negate _ | Gradient _ | Divergence _ => None
  end.

(** Symbols without any variable in them. *)
Fixpoint constant (s : Symbol) : bool :=
  match s with
  | Scalar _ => true
  | Variable_ _ _ | SpatialVariable _ _ _ => false
  | Negate a | Gradient a | Divergence a => constant a
  end.

(** The values of an initial-conditions dictionary [{variable: value}] and
    of a boundary-conditions dictionary
    [{variable: {side: (value, type)}}]. *)
Definition ic_values (v : value) : list Symbol :=
  match v with
  | VDict items =>
      flat_map (fun kv => match kv.2 with VSym s => [s] | _ => [] end) items
  | _ => []
  end.

Definition bc_values (v : value) : list Symbol :=
  match v with
  | VDict items =>
      flat_map
        (fun kv =>
           match kv.2 with
           | VDict sides =>
               flat_map (fun sv => match sv.2 with
                                   | VTuple [VSym s; _] => [s]
                                   | _ => []
                                   end) sides
           | _ => []
           end) items
  | _ => []
  end.

(** The initial and boundary values stored in the model at location 0. *)
Definition installed_values (h : list object) : list Symbol :=
  from_option ic_values [] (attr_at h 0 "initial_conditions")
  ++ from_option bc_values [] (attr_at h 0 "boundary_conditions").

(** The (min, max) limits of every spatial variable of a geometry
    [{domain: {dimension: {variable: {"min": lo, "max": hi}}}}]. *)
Definition variable_limits (v : value) : list (Q * Q) :=
  match dict_get "min" v, dict_get "max" v with
  | Some (VSym (Scalar lo)), Some (VSym (Scalar hi)) => [(lo, hi)]
  | _, _ => []
  end.

Definition limits (geometry : value) : list (Q * Q) :=
  match geometry with
  | VDict domains =>
      flat_map
        (fun dv =>
           match dv.2 with
           | VDict dimensions =>
               flat_map
                 (fun mv =>
                    match mv.2 with
                    | VDict variables =>
                        flat_map (fun vv => variable_limits vv.2) variables
                    | _ => []
                    end) dimensions
           | _ => []
           end) domains
  | _ => []
  end.

Definition within (lo hi x : Q) : Prop := (lo <= x)%Q /\ (x <= hi)%Q.

(** * Proofs *)

(** ** Induction over nested syntax *)

Section ExprInduction.

Variable P : expr -> Prop.
Hypothesis HNum : forall q, P (ENum q).
Hypothesis HStr : forall s, P (EStr s).
Hypothesis HName : forall x, P (EName x).
Hypothesis HAttr : forall e a, P e -> P (EAttr e a).
Hypothesis HCall : forall f es kes,
  P f -> Forall P es -> Forall (fun ke => P ke.2) kes -> P (ECall f es kes).
Hypothesis HNeg : forall e, P e -> P (ENeg e).
Hypothesis HSubscript : forall e k, P e -> P k -> P (ESubscript e k).
Hypothesis HTuple : forall es, Forall P es -> P (ETuple es).
Hypothesis HList : forall es, Forall P es -> P (EList es).
Hypothesis HDict : forall items,
  Forall (fun it => P it.1 /\ P it.2) items -> P (EDict items).
Hypothesis HLambda : forall ps b, P b -> P (ELambda ps b).
Hypothesis HIfExp : forall c a b, P c -> P a -> P b -> P (EIfExp c a b).
Hypothesis HListComp : forall elt x iter,
  P elt -> P iter -> P (EListComp elt x iter).

Fixpoint expr_nested_ind (e : expr) : P e :=
  let all :=
    fix all (l : list expr) : Forall P l :=
      match l with
      | [] => @List.Forall_nil _ P
      | e1 :: l' => @List.Forall_cons _ P e1 l' (expr_nested_ind e1) (all l')
      end in
  match e with
  | ENum q => HNum q
  | EStr s => HStr s
  | EName x => HName x
  | EAttr e1 a => HAttr e1 a (expr_nested_ind e1)
  | ECall f es kes =>
      HCall f es kes (expr_nested_ind f) (all es)
        ((fix go (l : list (string * expr)) : Forall (fun ke => P ke.2) l :=
            match l with
            | [] => @List.Forall_nil _ _
            | ke :: l' =>
                @List.Forall_cons _ (fun ke => P ke.2) ke l'
                  (expr_nested_ind ke.2) (go l')
            end) kes)
  | ENeg e1 => HNeg e1 (expr_nested_ind e1)
  | ESubscript e1 k => HSubscript e1 k (expr_nested_ind e1) (expr_nested_ind k)
  | ETuple es => HTuple es (all es)
  | EList es => HList es (all es)
  | EDict items =>
      HDict items
        ((fix go (l : list (expr * expr))
            : Forall (fun it => P it.1 /\ P it.2) l :=
            match l with
            | [] => @List.Forall_nil _ _
            | it :: l' =>
                @List.Forall_cons _ (fun it => P it.1 /\ P it.2) it l'
                  (conj (expr_nested_ind it.1) (expr_nested_ind it.2)) (go l')
            end) items)
  | ELambda ps b => HLambda ps b (expr_nested_ind b)
  | EIfExp c a b =>
      HIfExp c a b (expr_nested_ind c) (expr_nested_ind a) (expr_nested_ind b)
  | EListComp elt x iter =>
      HListComp elt x iter (expr_nested_ind elt) (expr_nested_ind iter)
  end.

End ExprInduction.

Section TargetInduction.

Variable P : target -> Prop.
Hypothesis HName : forall x, P (TName x).
Hypothesis HAttr : forall e a, P (TAttr e a).
Hypothesis HTuple : forall ts, Forall P ts -> P (TTuple ts).

Fixpoint target_nested_ind (t : target) : P t :=
  match t with
  | TName x => HName x
  | TAttr e a => HAttr e a
  | TTuple ts =>
      HTuple ts
        ((fix all (l : list target) : Forall P l :=
            match l with
            | [] => @List.Forall_nil _ P
            | t1 :: l' => @List.Forall_cons _ P t1 l' (target_nested_ind t1) (all l')
            end) ts)
  end.

End TargetInduction.

(** ** Exceptions propagate through programs without handlers *)

Lemma clean_snoc (tr : list event) (ev : event) :
  clean (tr ++ [ev]) = (clean tr && returned ev)%bool.
Proof.
  unfold clean. rewrite forallb_app. simpl. now rewrite andb_true_r.
Qed.

Section Propagation.

Variable lib : Library.

Lemma follows_bind {A B : Type} (mq ml : M A) (kq kl : A -> M B) :
  follows lib mq ml ->
  (forall a, follows lib (kq a) (kl a)) ->
  follows lib (bind mq kq) (bind ml kl).
Proof.
  intros Hm Hk st Hc. unfold bind.
  destruct (Hm st Hc) as [Hp Hd].
  destruct (ml st) as [a st1 | x st1 | msg st1] eqn:E.
  - destruct (Hk a st1 Hp) as [Hp' Hd']. split; [exact Hp' |].
    intros b st2 Hq.
    destruct (mq st) as [a' st1' | |] eqn:Eq; try discriminate.
    destruct (Hd _ _ eq_refl) as [H | [x [st'' H]]]; [| discriminate].
    injection H as -> ->. now apply Hd'.
  - split; [exact Hp |]. intros; right; eauto.
  - split; [exact Hp |]. intros b st2 Hq.
    destruct (mq st) as [a' st1' | |] eqn:Eq; try discriminate.
    destruct (Hd _ _ eq_refl) as [H | [x [st'' H]]]; discriminate.
Qed.

Lemma follows_silent {A : Type} (m : M A) : silent m -> follows lib m m.
Proof.
  intros Hs st Hc. specialize (Hs st).
  destruct (m st) as [a st1 | x st1 | msg st1]; simpl.
  - split; [now rewrite Hs | intros; now left].
  - destruct Hs.
  - split; [now rewrite Hs | intros; discriminate].
Qed.

Lemma silent_ret {A : Type} (a : A) : silent (ret a).
Proof. intros st. reflexivity. Qed.

Lemma silent_fault {A : Type} (msg : string) : silent (@fault A msg).
Proof. intros st. reflexivity. Qed.

Lemma silent_lookup_name (x : string) : silent (lookup_name x).
Proof. intros st. unfold lookup_name. now destruct (env st !! x). Qed.

Lemma silent_bind_name (x : string) (v : value) : silent (bind_name x v).
Proof. intros st. reflexivity. Qed.

Lemma silent_get_attr (v : value) (a : string) : silent (get_attr v a).
Proof.
  intros st. destruct v; simpl; try reflexivity.
  now destruct (heap st !! l ≫= _).
Qed.

Lemma follows_ret {A : Type} (a : A) : follows lib (ret a) (ret a).
Proof. apply follows_silent, silent_ret. Qed.

Lemma follows_fault {A : Type} (msg : string) :
  follows lib (@fault A msg) (fault msg).
Proof. apply follows_silent, silent_fault. Qed.

Lemma follows_lib_call (c : call) :
  follows lib (lib_call (quiet (discretise lib)) c) (lib_call lib c).
Proof.
  intros st Hc. unfold lib_call. simpl.
  destruct (raises lib (length (trace st)) c) as [x |] eqn:R.
  - split; [| intros; right; eauto].
    simpl. exists (trace st), c. auto.
  - destruct (lib_apply (discretise lib) c (heap st)) as [[v h'] |]; simpl.
    + split; [| intros; now left].
      rewrite clean_snoc, Hc. reflexivity.
    + split; [exact Hc | intros; discriminate].
Qed.

Lemma follows_method (v : value) (a : string) (vs : list value) :
  follows lib (method (quiet (discretise lib)) v a vs) (method lib v a vs).
Proof. apply follows_lib_call. Qed.

Lemma follows_apply_value (f : value) (vs : list value)
    (kvs : list (string * value)) :
  follows lib (apply_value (quiet (discretise lib)) f vs kvs) (apply_value lib f vs kvs).
Proof.
  destruct f; simpl; first [apply follows_lib_call | apply follows_fault].
Qed.

Lemma follows_negate (v : value) : follows lib (negate (quiet (discretise lib)) v) (negate lib v).
Proof.
  destruct v; simpl;
    first [apply follows_method | apply follows_fault | apply follows_ret].
Qed.

Lemma follows_subscript (v k : value) :
  follows lib (subscript (quiet (discretise lib)) v k) (subscript lib v k).
Proof.
  destruct v; simpl; first [apply follows_method | apply follows_fault].
Qed.

Lemma follows_eval_list (es : list expr) :
  Forall (fun e => follows lib (eval (quiet (discretise lib)) e) (eval lib e)) es ->
  follows lib (eval_list (eval (quiet (discretise lib))) es) (eval_list (eval lib) es).
Proof.
  induction 1 as [| e es He _ IH]; simpl.
  - apply follows_ret.
  - apply follows_bind; [exact He | intros v].
    apply follows_bind; [exact IH | intros vs]. apply follows_ret.
Qed.

Lemma follows_eval_kwargs (kes : list (string * expr)) :
  Forall (fun ke => follows lib (eval (quiet (discretise lib)) ke.2) (eval lib ke.2)) kes ->
  follows lib (eval_kwargs (eval (quiet (discretise lib))) kes) (eval_kwargs (eval lib) kes).
Proof.
  induction 1 as [| [k e] kes He _ IH]; simpl.
  - apply follows_ret.
  - apply follows_bind; [exact He | intros v].
    apply follows_bind; [exact IH | intros vs]. apply follows_ret.
Qed.

Lemma follows_eval_items (items : list (expr * expr)) :
  Forall (fun it => follows lib (eval (quiet (discretise lib)) it.1) (eval lib it.1)
                    /\ follows lib (eval (quiet (discretise lib)) it.2) (eval lib it.2)) items ->
  follows lib (eval_items (eval (quiet (discretise lib))) items) (eval_items (eval lib) items).
Proof.
  induction 1 as [| [k e] items [Hk He] _ IH]; simpl.
  - apply follows_ret.
  - apply follows_bind; [exact Hk | intros kv].
    apply follows_bind; [exact He | intros v].
    apply follows_bind; [exact IH | intros vs]. apply follows_ret.
Qed.

Lemma follows_eval (e : expr) : follows lib (eval (quiet (discretise lib)) e) (eval lib e).
Proof.
  induction e using expr_nested_ind; cbn [eval].
  - apply follows_ret.
  - apply follows_ret.
  - apply follows_silent, silent_lookup_name.
  - apply follows_bind; [assumption | intros v].
    apply follows_silent, silent_get_attr.
  - apply follows_bind; [assumption | intros fv].
    apply follows_bind; [now apply follows_eval_list | intros vs].
    apply follows_bind; [now apply follows_eval_kwargs | intros kvs].
    apply follows_apply_value.
  - apply follows_bind; [assumption | intros v]. apply follows_negate.
  - apply follows_bind; [assumption | intros v].
    apply follows_bind; [assumption | intros kv]. apply follows_subscript.
  - apply follows_bind; [now apply follows_eval_list | intros vs].
    apply follows_ret.
  - apply follows_bind; [now apply follows_eval_list | intros vs].
    apply follows_ret.
  - apply follows_bind; [now apply follows_eval_items | intros kvs].
    apply follows_ret.
  - apply follows_fault.
  - apply follows_fault.
  - apply follows_fault.
Qed.

Lemma follows_assign_each (ts : list target) :
  Forall (fun t => forall v, follows lib (assign (quiet (discretise lib)) t v) (assign lib t v)) ts ->
  forall vs,
    follows lib (assign_each (assign (quiet (discretise lib))) ts vs)
      (assign_each (assign lib) ts vs).
Proof.
  induction 1 as [| t ts Ht _ IH]; intros vs; simpl.
  - apply follows_ret.
  - destruct vs as [| w ws]; [apply follows_fault |].
    apply follows_bind; [apply Ht | intros _; apply IH].
Qed.

Lemma follows_assign (t : target) (v : value) :
  follows lib (assign (quiet (discretise lib)) t v) (assign lib t v).
Proof.
  revert v. induction t using target_nested_ind; intros v; cbn [assign].
  - apply follows_silent, silent_bind_name.
  - apply follows_bind; [apply follows_eval | intros o].
    destruct o; try apply follows_fault.
    apply follows_bind; [apply follows_method | intros _; apply follows_ret].
  - destruct (unpack v (length ts)); [| apply follows_fault].
    now apply follows_assign_each.
Qed.

Lemma follows_exec (s : stmt) :
  is_try s = false -> follows lib (exec (quiet (discretise lib)) s) (exec lib s).
Proof.
  destruct s; intros Hs; try discriminate; cbn [exec].
  - apply follows_silent, silent_bind_name.
  - apply follows_bind; [apply follows_eval | intros v; apply follows_assign].
  - apply follows_bind; [apply follows_eval | intros _; apply follows_ret].
  - apply follows_fault.
  - apply follows_fault.
  - apply follows_fault.
  - apply follows_fault.
  - apply follows_fault.
Qed.

Lemma handlers_cons (s : stmt) (p : list stmt) :
  handlers (s :: p) = 0%nat -> is_try s = false /\ handlers p = 0%nat.
Proof.
  unfold handlers, statements. simpl flat_map.
  rewrite filter_app, length_app.
  destruct s; simpl substmts; rewrite ?filter_cons; simpl;
    intros H; split; solve [reflexivity | lia | discriminate].
Qed.

Lemma follows_exec_all (p : list stmt) :
  handlers p = 0%nat -> follows lib (exec_all (quiet (discretise lib)) p) (exec_all lib p).
Proof.
  unfold exec_all. induction p as [| s p IH]; intros Hp; simpl.
  - apply follows_ret.
  - apply handlers_cons in Hp as [Hs Hp].
    apply follows_bind; [now apply follows_exec | intros _; now apply IH].
Qed.

End Propagation.

(** ** numpy.linspace *)

Lemma gaps_map_seq (f : nat -> Q) (step : Q) :
  (forall i, (f (S i) - f i == step)%Q) ->
  forall m k, Forall (fun g => (g == step)%Q) (gaps (map f (seq k m))).
Proof.
  intros Hf. induction m as [| m IH]; intros k.
  - constructor.
  - destruct m as [| m].
    + constructor.
    + specialize (IH (S k)). change (seq k (S (S m))) with (k :: seq (S k) (S m)).
      change (seq (S k) (S m)) with (S k :: seq (S (S k)) m) in *.
      unfold gaps in *. simpl in *. constructor; [apply Hf | exact IH].
Qed.

Lemma linspace_length (a b : Q) (n : nat) : length (linspace a b n) = n.
Proof.
  destruct n as [| [| n]]; try reflexivity.
  unfold linspace. now rewrite length_map, length_seq.
Qed.

Lemma linspace_gaps (a b : Q) (n : nat) :
  Forall (fun g => (g == (b - a) / inject_Z (Z.of_nat (S n)))%Q)
    (gaps (linspace a b (S (S n)))).
Proof.
  unfold linspace. replace (S (S n) - 1)%nat with (S n) by lia.
  apply gaps_map_seq. intros i.
  rewrite Nat2Z.inj_succ. unfold Z.succ. rewrite inject_Z_plus. ring.
Qed.

(** ** The polynomial fields *)

Lemma poly_neg_involutive (p : list Z) : Poly.neg (Poly.neg p) = p.
Proof.
  unfold Poly.neg. induction p as [| a p IH]; simpl; [reflexivity |].
  now rewrite Z.opp_involutive, IH.
Qed.

Lemma poly_scale_from_neg (p : list Z) :
  forall k, Poly.scale_from k (Poly.neg p) = Poly.neg (Poly.scale_from k p).
Proof.
  unfold Poly.neg. induction p as [| a p IH]; intros k; simpl; [reflexivity |].
  rewrite IH. f_equal. lia.
Qed.

Lemma poly_deriv_neg (p : list Z) :
  Poly.deriv (Poly.neg p) = Poly.neg (Poly.deriv p).
Proof.
  destruct p as [| a p]; [reflexivity |]. apply poly_scale_from_neg.
Qed.

(** ** The notebook *)

(** C1, as the code has it.  After the set-up cells the model holds, for the
    concentration, the left condition [(Scalar(0), "Dirichlet")] and the
    right condition [(Scalar(2), "Neumann")].  The right side is the stated
    derivative-2 condition; the left side fixes the value c = 0 at r = 0,
    where the problem statement of the notebook asks for the zero-derivative
    (Neumann) condition, so the installed dictionary is not the stated one. *)
Theorem C1_left_boundary_installed_as_dirichlet (d : value -> object -> object) :
  completed (after_setup d) = true
  /\ final_env (after_setup d) !! "model" = Some (VRef 0)
  /\ attr_at (final_heap (after_setup d)) 0 "boundary_conditions"
     = Some Bound.boundary_conditions
  /\ side_of Bound.boundary_conditions "left"
     = Some (VTuple [VSym (Scalar (inject_Z 0)); VStr "Dirichlet"])
  /\ side_of (stated_boundary_conditions Notebook.problem_statement) "left"
     = Some (VTuple [VSym (Scalar (inject_Z 0)); VStr "Neumann"])
  /\ side_of Bound.boundary_conditions "right"
     = Some (VTuple [VSym (Scalar (inject_Z 2)); VStr "Neumann"])
  /\ side_of (stated_boundary_conditions Notebook.problem_statement) "right"
     = Some (VTuple [VSym (Scalar (inject_Z 2)); VStr "Neumann"])
  /\ Bound.boundary_conditions
     <> stated_boundary_conditions Notebook.problem_statement.
Proof.
  repeat split; try (vm_compute; reflexivity).
  intros H. discriminate H.
Qed.

(** C2.  The set-up cells register for the concentration [c] the right-hand
    side [dcdt = Negate (Divergence (Negate (Gradient c)))].  In every space
    of fields where negation is an involution and the divergence commutes
    with negation, this denotes the divergence of the gradient of [c], the
    same field as [Divergence (Gradient c)]: the two negations cancel.  The
    equality is algebraic; the two symbols are different trees. *)
Theorem C2_rhs_is_div_grad (d : value -> object -> object)
    (F : Type) (const : Q -> F) (unknown : string -> F) (neg grad div : F -> F)
    (neg_involutive : forall x, neg (neg x) = x)
    (div_neg : forall x, div (neg x) = neg (div x)) :
  attr_at (final_heap (after_setup d)) 0 "rhs"
  = Some (VDict [(VSym Bound.c, VSym Bound.dcdt)])
  /\ Bound.dcdt = Negate (Divergence (Negate (Gradient Bound.c)))
  /\ denote F const unknown neg grad div Bound.dcdt
     = div (grad (denote F const unknown neg grad div Bound.c))
  /\ denote F const unknown neg grad div Bound.dcdt
     = denote F const unknown neg grad div (Divergence (Gradient Bound.c))
  /\ Bound.dcdt <> Divergence (Gradient Bound.c).
Proof.
  split; [vm_compute; reflexivity |].
  split; [reflexivity |].
  assert (E : denote F const unknown neg grad div Bound.dcdt
              = div (grad (denote F const unknown neg grad div Bound.c))).
  { unfold Bound.dcdt, Bound.N. cbn [denote].
    now rewrite div_neg, neg_involutive. }
  split; [exact E |]. split; [exact E |].
  intros H. discriminate H.
Qed.

Lemma C2_rhs_is_div_grad_witness :
  Poly.denote Bound.dcdt = Poly.deriv (Poly.deriv (Poly.denote Bound.c))
  /\ Poly.denote Bound.dcdt = [2].
Proof.
  split.
  - exact (proj1 (proj2 (proj2
      (C2_rhs_is_div_grad (fun _ o => o) (list Z) Poly.const Poly.unknown
         Poly.neg Poly.deriv Poly.deriv poly_neg_involutive poly_deriv_neg)))).
  - reflexivity.
Defined.

(** C3.  The mesh is the result of [pybamm.Mesh] applied to exactly three
    arguments: the geometry, with the single domain "negative particle"
    whose primary dimension is the spatial variable [r] (spherical polar)
    with limits min = Scalar(0) and max = Scalar(1); the submesh types, with
    the uniform one-dimensional submesh generator for that domain; and the
    point counts [{r: 20}]. *)
Theorem C3_mesh_from_bounds_and_points (d : value -> object -> object) :
  completed (finished d) = true
  /\ final_env (finished d) !! "mesh"
     = Some (VCall (VLib "pybamm" "Mesh")
               [Bound.geometry; Bound.submesh_types; Bound.var_pts] [])
  /\ final_env (finished d) !! "geometry"
     = Some (VDict
          [(VStr "negative particle",
            VDict
              [(VStr "primary",
                VDict
                  [(VSym (SpatialVariable "r" ["negative particle"]
                            "spherical polar"),
                    VDict
                      [(VStr "min", VSym (Scalar (inject_Z 0)));
                       (VStr "max", VSym (Scalar (inject_Z 1)))])])])])
  /\ final_env (finished d) !! "submesh_types"
     = Some (VDict
          [(VStr "negative particle",
            VCall (VLib "pybamm" "MeshGenerator")
              [VLib "pybamm" "Uniform1DSubMesh"] [])])
  /\ final_env (finished d) !! "var_pts"
     = Some (VDict
          [(VSym (SpatialVariable "r" ["negative particle"] "spherical polar"),
            VNum (inject_Z 20))])
  /\ ev_call <$> final_trace (finished d) !! 17%nat
     = Some {| callee := VLib "pybamm" "Mesh";
               args := [Bound.geometry; Bound.submesh_types; Bound.var_pts];
               kwargs := [] |}
  /\ positions BuildMesh (final_trace (finished d)) = [16; 17]%nat.
Proof.
  repeat split; vm_compute; reflexivity.
Qed.

(** C4.  The notebook builds [pybamm.ScipySolver()] and calls its [solve]
    on the model object, whose content at that moment is what the
    discretisation pass wrote, together with the output times
    [np.linspace(0, 1, 100)]: 100 samples from 0 to 1 with equal gaps of
    1/99.  Every plotting call comes after the solve, and the two curves
    plotted are taken from the solution: [c(solution.t, r=1)] against
    [solution.t], and [c(t=0.5, r=r)] against [r]. *)
Theorem C4_solver_invoked_then_plotted (d : value -> object -> object) :
  completed (finished d) = true
  /\ ev_call <$> final_trace (finished d) !! 21%nat
     = Some {| callee := VLib "pybamm" "ScipySolver"; args := []; kwargs := [] |}
  /\ ev_call <$> final_trace (finished d) !! 23%nat
     = Some {| callee := VAttr (VCall (VLib "pybamm" "ScipySolver") [] []) "solve";
               args := [VRef 0;
                        VArray (linspace (inject_Z 0) (inject_Z 1) 100)];
               kwargs := [] |}
  /\ ev_heap <$> final_trace (finished d) !! 23%nat
     = Some [d Bound.disc Bound.model_object]
  /\ positions Integrate (final_trace (finished d)) = [23]%nat
  /\ length (linspace (inject_Z 0) (inject_Z 1) 100) = 100%nat
  /\ (exists x, head (linspace (inject_Z 0) (inject_Z 1) 100) = Some x
                /\ (x == 0)%Q)
  /\ (exists x, last (linspace (inject_Z 0) (inject_Z 1) 100) = Some x
                /\ (x == 1)%Q)
  /\ Forall (fun g => (g == 1 # 99)%Q)
       (gaps (linspace (inject_Z 0) (inject_Z 1) 100))
  /\ final_env (finished d) !! "solution" = Some Bound.solution
  /\ positions Plot (final_trace (finished d))
     = [25; 27; 28; 29; 32; 33; 34; 35; 36]%nat
  /\ ev_call <$> final_trace (finished d) !! 27%nat
     = Some {| callee := VAttr Bound.ax1 "plot";
               args := [VAttr Bound.solution "t";
                        VCall Bound.concentration [VAttr Bound.solution "t"]
                          [("r", VNum (inject_Z 1))]];
               kwargs := [] |}
  /\ ev_call <$> final_trace (finished d) !! 32%nat
     = Some {| callee := VAttr Bound.ax2 "plot";
               args := [VArray (linspace (inject_Z 0) (inject_Z 1) 100);
                        VCall Bound.concentration []
                          [("t", VNum (1 # 2));
                           ("r", VArray (linspace (inject_Z 0) (inject_Z 1) 100))]];
               kwargs := [] |}
  /\ ev_call <$> final_trace (finished d) !! 36%nat
     = Some {| callee := VLib "matplotlib.pyplot" "show";
               args := []; kwargs := [] |}.
Proof.
  split; [vm_compute; reflexivity |].
  split; [vm_compute; reflexivity |].
  split; [vm_compute; reflexivity |].
  split; [vm_compute; reflexivity |].
  split; [vm_compute; reflexivity |].
  split; [apply linspace_length |].
  split; [eexists; split; [reflexivity | reflexivity] |].
  split; [eexists; split; [vm_compute; reflexivity | reflexivity] |].
  split; [apply (linspace_gaps (inject_Z 0) (inject_Z 1) 98) |].
  repeat split; vm_compute; reflexivity.
Qed.

(** C5.  In the run of the notebook the library calls fall in the stated
    order.  Every call that constructs a symbol or the model (positions 0
    to 15 of the trace) happens before the discretisation pass;
    the mesh is built at positions 16 and 17; [disc.process_model] is called
    once, at position 20; the solver is made at 21 and [solver.solve] is
    called once, at 23.  After the solve nothing is constructed, meshed,
    discretised or integrated: what remains is the look-up of the solution,
    numpy's sample points and the plotting calls, the first of which is at
    position 25. *)
Theorem C5_pipeline_order (d : value -> object -> object) :
  completed (finished d) = true
  /\ length (final_trace (finished d)) = 37%nat
  /\ positions Construct (final_trace (finished d))
     = [0; 1; 2; 3; 4; 5; 6; 7; 8; 9; 10; 11; 12; 13; 14; 15]%nat
  /\ positions BuildMesh (final_trace (finished d)) = [16; 17]%nat
  /\ positions SetUpDiscretisation (final_trace (finished d)) = [18; 19]%nat
  /\ positions ProcessModel (final_trace (finished d)) = [20]%nat
  /\ positions MakeSolver (final_trace (finished d)) = [21]%nat
  /\ positions Integrate (final_trace (finished d)) = [23]%nat
  /\ forallb (fun ev => is_plot_or_postprocess (step_of ev))
       (drop 24 (final_trace (finished d))) = true
  /\ step_of <$> final_trace (finished d) !! 24%nat = Some PostProcess
  /\ head (positions Plot (final_trace (finished d))) = Some 25%nat
  /\ length (filter (fun s => calls_method "process_model" s = true)
               (statements Notebook.program)) = 1%nat.
Proof.
  repeat split; vm_compute; reflexivity.
Qed.

(** C6.  The notebook contains no [try] statement.  Run against any library,
    it ends in one of two ways.  If no call raises, it runs to the end as it
    does against the library in which nothing raises.  If a call raises, the
    run stops there with that exception: the raising call is the last one
    made, no later statement runs, and the namespace and the heap (the model,
    the mesh, the solution if already bound) are those of the moment of the
    call. *)
Theorem C6_exceptions_propagate_uncaught (lib : Library) :
  handlers Notebook.program = 0%nat
  /\ existsb is_try (statements Notebook.program) = false
  /\ completed (finished (discretise lib)) = true
  /\ propagated lib (run lib Notebook.program)
  /\ (run lib Notebook.program = finished (discretise lib)
      \/ exists x st, run lib Notebook.program = Raised x st).
Proof.
  assert (H0 : handlers Notebook.program = 0%nat) by (vm_compute; reflexivity).
  assert (C : completed (finished (discretise lib)) = true)
    by (vm_compute; reflexivity).
  split; [exact H0 |]. split; [vm_compute; reflexivity |].
  split; [exact C |].
  destruct (follows_exec_all lib Notebook.program H0 initial eq_refl)
    as [Hp Hd].
  split; [exact Hp |].
  unfold finished, run in *.
  destruct (exec_all (quiet (discretise lib)) Notebook.program initial)
    as [[] st' | |]; try discriminate C.
  exact (Hd tt st' eq_refl).
Qed.

(** If building the mesh raises, the run stops at that call, the eighteenth:
    [mesh], [disc] and [solution] are never bound, and the model object is
    as the set-up cells left it. *)
Example mesh_failure_aborts (d : value -> object -> object) :
  stopped_by (run (raising "pybamm" "Mesh" "GeometryError" d) Notebook.program)
  = Some "GeometryError"
  /\ length (final_trace
               (run (raising "pybamm" "Mesh" "GeometryError" d) Notebook.program))
     = 18%nat
  /\ final_env (run (raising "pybamm" "Mesh" "GeometryError" d) Notebook.program)
       !! "geometry" = Some Bound.geometry
  /\ final_env (run (raising "pybamm" "Mesh" "GeometryError" d) Notebook.program)
       !! "mesh" = None
  /\ final_env (run (raising "pybamm" "Mesh" "GeometryError" d) Notebook.program)
       !! "solution" = None
  /\ final_heap (run (raising "pybamm" "Mesh" "GeometryError" d) Notebook.program)
     = [Bound.model_object].
Proof.
  repeat split; vm_compute; reflexivity.
Qed.

(** With a handler around it the same failure would be swallowed: the run
    completes although a call raised. *)
Example handler_would_swallow (d : value -> object -> object) :
  handlers guarded_program = 1%nat
  /\ completed (run (raising "pybamm" "Mesh" "GeometryError" d) guarded_program)
     = true
  /\ clean (final_trace
              (run (raising "pybamm" "Mesh" "GeometryError" d) guarded_program))
     = false.
Proof.
  repeat split; vm_compute; reflexivity.
Qed.

(** C7.  The notebook is straight-line code: each of its statements is an
    import, an assignment or an expression statement; it defines no function
    or class, has no loop and no conditional, neither as a statement nor as
    an expression.  Every operation of its run is a call into pybamm, numpy
    or matplotlib.pyplot, or on a value obtained from one of them; both unary
    minus signs are such calls. *)
Theorem C7_all_computation_is_library_calls (d : value -> object -> object) :
  forallb is_simple (statements Notebook.program) = true
  /\ existsb is_definition (statements Notebook.program) = false
  /\ existsb is_loop (statements Notebook.program) = false
  /\ existsb is_conditional (statements Notebook.program) = false
  /\ existsb is_control_expr (expressions Notebook.program) = false
  /\ completed (finished d) = true
  /\ forallb (fun ev => from_library (callee (ev_call ev)))
       (final_trace (finished d)) = true
  /\ length (filter (fun e => match e with ENeg _ => true | _ => false end = true)
               (expressions Notebook.program)) = 2%nat
  /\ length (filter (fun ev => match callee (ev_call ev) with
                               | VAttr _ "__neg__" => true
                               | _ => false
                               end = true)
               (final_trace (finished d))) = 2%nat.
Proof.
  repeat split; vm_compute; reflexivity.
Qed.

(** C8.  The name [model] is bound once, to the object [pybamm.BaseModel()]
    returns.  That same reference is the argument of [disc.process_model]
    and the first argument of [solver.solve].  The one statement that calls
    [process_model] is an expression statement, so its result is bound to no
    name; the model object that [solve] sees is the one the discretisation
    pass wrote in place of the object the set-up cells had filled. *)
Theorem C8_model_discretised_in_place (d : value -> object -> object) :
  completed (finished d) = true
  /\ filter (fun s => binds "model" s = true) (statements Notebook.program)
     = [SAssign (TName "model") (ECallOn "pybamm" "BaseModel" [] [])]
  /\ filter (fun s => calls_method "process_model" s = true)
       (statements Notebook.program)
     = [SExpr (ECallOn "disc" "process_model" [EName "model"] [])]
  /\ (fun ev => (callee (ev_call ev), ev_result ev))
       <$> final_trace (finished d) !! 0%nat
     = Some (VLib "pybamm" "BaseModel", Returned (VRef 0))
  /\ ev_call <$> final_trace (finished d) !! 20%nat
     = Some {| callee := VAttr Bound.disc "process_model";
               args := [VRef 0]; kwargs := [] |}
  /\ ev_heap <$> final_trace (finished d) !! 20%nat
     = Some [Bound.model_object]
  /\ ev_call <$> final_trace (finished d) !! 23%nat
     = Some {| callee := VAttr Bound.solver "solve";
               args := [VRef 0; Bound.t]; kwargs := [] |}
  /\ ev_heap <$> final_trace (finished d) !! 23%nat
     = Some [d Bound.disc Bound.model_object]
  /\ final_env (finished d) !! "model" = Some (VRef 0)
  /\ final_heap (finished d) = [d Bound.disc Bound.model_object].
Proof.
  repeat split; vm_compute; reflexivity.
Qed.

(** C9.  The set-up cells install as initial condition the dictionary that
    maps the concentration [c] to [Scalar(1)].  A scalar denotes the
    constant field of its value, whatever the unknowns and the spatial
    variable denote, so the condition is the constant 1, the initial value
    of the problem statement. *)
Theorem C9_initial_condition_uniform (d : value -> object -> object)
    (F : Type) (const : Q -> F) (unknown : string -> F) (neg grad div : F -> F) :
  attr_at (final_heap (after_setup d)) 0 "initial_conditions"
  = Some (VDict [(VSym Bound.c, VSym (Scalar (inject_Z 1)))])
  /\ denote F const unknown neg grad div (Scalar (inject_Z 1))
     = const (Notebook.stated_initial Notebook.problem_statement)
  /\ Bound.c = Variable_ "Concentration" ["negative particle"].
Proof.
  repeat split; vm_compute; reflexivity.
Qed.

(** C10.  The set-up cells install as output variables the dictionary with
    "Concentration" mapped to the variable [c] and "Flux" mapped to
    [N = Negate (Gradient c)], which denotes minus the gradient of the
    concentration. *)
Theorem C10_flux_is_minus_gradient (d : value -> object -> object)
    (F : Type) (const : Q -> F) (unknown : string -> F) (neg grad div : F -> F) :
  attr_at (final_heap (after_setup d)) 0 "variables"
  = Some (VDict [(VStr "Concentration", VSym Bound.c);
                 (VStr "Flux", VSym Bound.N)])
  /\ Bound.N = Negate (Gradient (Variable_ "Concentration" ["negative particle"]))
  /\ denote F const unknown neg grad div Bound.N
     = neg (grad (denote F const unknown neg grad div Bound.c))
  /\ final_env (after_setup d) !! "N" = Some (VSym Bound.N)
  /\ final_env (after_setup d) !! "c" = Some (VSym Bound.c).
Proof.
  repeat split; vm_compute; reflexivity.
Qed.

(** * The notebook against a failing library *)

(** ** Lifting a relation from library calls to whole programs *)

Section Lifting.

Variable lib : Library.
Variable R : forall A : Type, M A -> M A -> Prop.

Hypothesis R_bind : forall (A B : Type) (mq ml : M A) (kq kl : A -> M B),
  R A mq ml -> (forall a, R B (kq a) (kl a)) -> R B (bind mq kq) (bind ml kl).
Hypothesis R_silent : forall (A : Type) (m : M A), silent m -> R A m m.
Hypothesis R_lib_call : forall c,
  R value (lib_call (quiet (discretise lib)) c) (lib_call lib c).

Lemma lift_apply_value (f : value) (vs : list value)
    (kvs : list (string * value)) :
  R value (apply_value (quiet (discretise lib)) f vs kvs)
    (apply_value lib f vs kvs).
Proof.
  destruct f; simpl;
    first [apply R_lib_call | apply R_silent, silent_fault].
Qed.

Lemma lift_negate (v : value) :
  R value (negate (quiet (discretise lib)) v) (negate lib v).
Proof.
  destruct v; simpl;
    first [apply R_lib_call | apply R_silent, silent_fault
          | apply R_silent, silent_ret].
Qed.

Lemma lift_subscript (v k : value) :
  R value (subscript (quiet (discretise lib)) v k) (subscript lib v k).
Proof.
  destruct v; simpl;
    first [apply R_lib_call | apply R_silent, silent_fault].
Qed.

Lemma lift_eval_list (es : list expr) :
  Forall (fun e => R value (eval (quiet (discretise lib)) e) (eval lib e)) es ->
  R (list value) (eval_list (eval (quiet (discretise lib))) es)
    (eval_list (eval lib) es).
Proof.
  induction 1 as [| e es He _ IH]; simpl.
  - apply R_silent, silent_ret.
  - apply R_bind; [exact He | intros v].
    apply R_bind; [exact IH | intros vs]. apply R_silent, silent_ret.
Qed.

Lemma lift_eval_kwargs (kes : list (string * expr)) :
  Forall (fun ke => R value (eval (quiet (discretise lib)) ke.2)
                      (eval lib ke.2)) kes ->
  R (list (string * value)) (eval_kwargs (eval (quiet (discretise lib))) kes)
    (eval_kwargs (eval lib) kes).
Proof.
  induction 1 as [| [k e] kes He _ IH]; simpl.
  - apply R_silent, silent_ret.
  - apply R_bind; [exact He | intros v].
    apply R_bind; [exact IH | intros vs]. apply R_silent, silent_ret.
Qed.

Lemma lift_eval_items (items : list (expr * expr)) :
  Forall (fun it => R value (eval (quiet (discretise lib)) it.1) (eval lib it.1)
                    /\ R value (eval (quiet (discretise lib)) it.2)
                         (eval lib it.2)) items ->
  R (list (value * value)) (eval_items (eval (quiet (discretise lib))) items)
    (eval_items (eval lib) items).
Proof.
  induction 1 as [| [k e] items [Hk He] _ IH]; simpl.
  - apply R_silent, silent_ret.
  - apply R_bind; [exact Hk | intros kv].
    apply R_bind; [exact He | intros v].
    apply R_bind; [exact IH | intros vs]. apply R_silent, silent_ret.
Qed.

Lemma lift_eval (e : expr) :
  R value (eval (quiet (discretise lib)) e) (eval lib e).
Proof.
  induction e using expr_nested_ind; cbn [eval];
    try (apply R_silent; first [apply silent_ret | apply silent_fault]).
  - apply R_silent, silent_lookup_name.
  - apply R_bind; [assumption | intros v]. apply R_silent, silent_get_attr.
  - apply R_bind; [assumption | intros fv].
    apply R_bind; [now apply lift_eval_list | intros vs].
    apply R_bind; [now apply lift_eval_kwargs | intros kvs].
    apply lift_apply_value.
  - apply R_bind; [assumption | intros v]. apply lift_negate.
  - apply R_bind; [assumption | intros v].
    apply R_bind; [assumption | intros kv]. apply lift_subscript.
  - apply R_bind; [now apply lift_eval_list | intros vs].
    apply R_silent, silent_ret.
  - apply R_bind; [now apply lift_eval_list | intros vs].
    apply R_silent, silent_ret.
  - apply R_bind; [now apply lift_eval_items | intros kvs].
    apply R_silent, silent_ret.
Qed.

Lemma lift_assign_each (ts : list target) :
  Forall (fun t => forall v,
            R unit (assign (quiet (discretise lib)) t v) (assign lib t v)) ts ->
  forall vs,
    R unit (assign_each (assign (quiet (discretise lib))) ts vs)
      (assign_each (assign lib) ts vs).
Proof.
  induction 1 as [| t ts Ht _ IH]; intros vs; simpl.
  - apply R_silent, silent_ret.
  - destruct vs as [| w ws]; [apply R_silent, silent_fault |].
    apply R_bind; [apply Ht | intros _; apply IH].
Qed.

Lemma lift_assign (t : target) (v : value) :
  R unit (assign (quiet (discretise lib)) t v) (assign lib t v).
Proof.
  revert v. induction t using target_nested_ind; intros v; cbn [assign].
  - apply R_silent, silent_bind_name.
  - apply R_bind; [apply lift_eval | intros o].
    destruct o; try apply R_silent, silent_fault.
    apply R_bind; [apply R_lib_call | intros _; apply R_silent, silent_ret].
  - destruct (unpack v (length ts)); [| apply R_silent, silent_fault].
    now apply lift_assign_each.
Qed.

Lemma lift_exec (s : stmt) :
  is_try s = false -> R unit (exec (quiet (discretise lib)) s) (exec lib s).
Proof.
  destruct s; intros Hs; try discriminate; cbn [exec];
    try apply R_silent, silent_fault.
  - apply R_silent, silent_bind_name.
  - apply R_bind; [apply lift_eval | intros v; apply lift_assign].
  - apply R_bind; [apply lift_eval | intros _; apply R_silent, silent_ret].
Qed.

Lemma lift_exec_all (p : list stmt) :
  handlers p = 0%nat ->
  R unit (exec_all (quiet (discretise lib)) p) (exec_all lib p).
Proof.
  unfold exec_all. induction p as [| s p IH]; intros Hp; simpl.
  - apply R_silent, silent_ret.
  - apply handlers_cons in Hp as [Hs Hp].
    apply R_bind; [now apply lift_exec | intros _; now apply IH].
Qed.

End Lifting.

(** ** A stopped run is the uninterrupted run, cut *)

Section Shadowing.

Variable lib : Library.

Lemma shadows_bind {A B : Type} (mq ml : M A) (kq kl : A -> M B) :
  shadows lib mq ml ->
  (forall a, shadows lib (kq a) (kl a)) ->
  shadows lib (bind mq kq) (bind ml kl).
Proof.
  intros Hm Hk st b st2 H. unfold bind in H.
  destruct (mq st) as [a st1 | |] eqn:Eq; try discriminate.
  destruct (Hm st a st1 Eq) as [[e1 He1] Hml].
  destruct (Hk a st1 b st2 H) as [[e2 He2] Hkl].
  split.
  { exists (e1 ++ e2). now rewrite He2, He1, <- app_assoc. }
  unfold bind. destruct Hml as [Hml | Hml].
  - rewrite Hml. destruct Hkl as [Hkl | Hkl]; [now left | right].
    destruct (kl a st1) as [| x st'' |]; simpl in *; try contradiction.
    destruct Hkl as (k & ev & Hle & Hrest). exists k, ev.
    split; [| exact Hrest].
    rewrite He1, length_app in Hle. lia.
  - right. destruct (ml st) as [| x st'' |]; simpl in *; try contradiction.
    destruct Hml as (k & ev & Hle & Hlk & Htr & Hrest). exists k, ev.
    split; [exact Hle |].
    split; [rewrite He2; now apply lookup_app_l_Some |].
    split; [| exact Hrest].
    rewrite Htr, He2. f_equal. rewrite take_app_le; [reflexivity |].
    apply lookup_lt_Some in Hlk. lia.
Qed.

Lemma shadows_silent {A : Type} (m : M A) : silent m -> shadows lib m m.
Proof.
  intros Hs st a st' H. specialize (Hs st). rewrite H in Hs.
  split; [exists []; now rewrite app_nil_r | now left].
Qed.

Lemma shadows_lib_call (c : call) :
  shadows lib (lib_call (quiet (discretise lib)) c) (lib_call lib c).
Proof.
  intros st v st' H. unfold lib_call in *. simpl in H.
  destruct (lib_apply (discretise lib) c (heap st)) as [[v' h'] |] eqn:La;
    try discriminate.
  injection H as <- <-. simpl.
  split; [eexists; reflexivity |].
  destruct (raises lib (length (trace st)) c) as [x |] eqn:Rs;
    [right | now left].
  simpl. eexists (length (trace st)), _.
  split; [lia |].
  split; [now apply list_lookup_middle |].
  split; [now rewrite take_app_length |].
  auto.
Qed.

Lemma shadows_exec_all (p : list stmt) :
  handlers p = 0%nat ->
  shadows lib (exec_all (quiet (discretise lib)) p) (exec_all lib p).
Proof.
  apply (lift_exec_all lib (fun A => @shadows A lib)).
  - intros A B. apply shadows_bind.
  - intros A. apply shadows_silent.
  - apply shadows_lib_call.
Qed.

Lemma keeps_answers_bind {A B : Type} (mq ml : M A) (kq kl : A -> M B) :
  keeps_answers lib mq ml ->
  (forall a, keeps_answers lib (kq a) (kl a)) ->
  keeps_answers lib (bind mq kq) (bind ml kl).
Proof.
  intros Hm Hk st Ha. unfold bind. specialize (Hm st Ha).
  destruct (ml st) as [a st1 | x st1 | msg st1]; simpl in *; auto.
  now apply Hk.
Qed.

Lemma keeps_answers_silent {A : Type} (m : M A) :
  silent m -> keeps_answers lib m m.
Proof.
  intros Hs st Ha. specialize (Hs st).
  destruct (m st) as [a st1 | x st1 | msg st1]; simpl;
    [now rewrite Hs | destruct Hs | now rewrite Hs].
Qed.

Lemma keeps_answers_lib_call (c : call) :
  keeps_answers lib (lib_call (quiet (discretise lib)) c) (lib_call lib c).
Proof.
  intros st Ha. unfold lib_call.
  destruct (raises lib (length (trace st)) c) as [x |] eqn:Rs.
  - simpl. intros k ev Hk. apply lookup_snoc_Some in Hk as [[_ Hk] | [-> <-]];
      [now apply Ha | exact Rs].
  - destruct (lib_apply (discretise lib) c (heap st)) as [[v h'] |]; simpl;
      [| exact Ha].
    intros k ev Hk. apply lookup_snoc_Some in Hk as [[_ Hk] | [-> <-]];
      [now apply Ha | exact Rs].
Qed.

Lemma keeps_answers_exec_all (p : list stmt) :
  handlers p = 0%nat ->
  keeps_answers lib (exec_all (quiet (discretise lib)) p) (exec_all lib p).
Proof.
  apply (lift_exec_all lib (fun A => @keeps_answers A lib)).
  - intros A B. apply keeps_answers_bind.
  - intros A. apply keeps_answers_silent.
  - apply keeps_answers_lib_call.
Qed.

End Shadowing.

(** ** The notebook against any library *)

Lemma clean_lookup (tr : list event) (k : nat) (ev : event) :
  clean tr = true -> tr !! k = Some ev -> returned ev = true.
Proof.
  revert k. induction tr as [| e tr IH]; intros k Hc Hk; [discriminate |].
  unfold clean in Hc. simpl in Hc. apply andb_prop in Hc as [He Hc].
  destruct k as [| k]; [now injection Hk as <- | exact (IH k Hc Hk)].
Qed.

Lemma finished_clean (d : value -> object -> object) :
  clean (final_trace (finished d)) = true.
Proof. vm_compute. reflexivity. Qed.

Lemma finished_steps (d : value -> object -> object) :
  step_of <$> final_trace (finished d) = pipeline.
Proof. vm_compute. reflexivity. Qed.

Lemma notebook_answers (lib : Library) :
  answers lib (final_trace (run lib Notebook.program)).
Proof.
  assert (H0 : handlers Notebook.program = 0%nat) by (vm_compute; reflexivity).
  apply (keeps_answers_exec_all lib Notebook.program H0 initial).
  intros k ev Hk. discriminate Hk.
Qed.

Lemma notebook_run_cases (lib : Library) :
  run lib Notebook.program = finished (discretise lib)
  \/ exists x k ev,
       stopped_by (run lib Notebook.program) = Some x
       /\ final_trace (finished (discretise lib)) !! k = Some ev
       /\ final_trace (run lib Notebook.program)
          = take k (final_trace (finished (discretise lib))) ++ [threw_at x ev]
       /\ final_env (run lib Notebook.program) = ev_env ev
       /\ final_heap (run lib Notebook.program) = ev_heap ev
       /\ raises lib k (ev_call ev) = Some x.
Proof.
  assert (H0 : handlers Notebook.program = 0%nat) by (vm_compute; reflexivity).
  assert (C : completed (finished (discretise lib)) = true)
    by (vm_compute; reflexivity).
  pose proof (shadows_exec_all lib Notebook.program H0 initial) as Hs.
  unfold finished, run in *.
  destruct (exec_all (quiet (discretise lib)) Notebook.program initial)
    as [[] stq | |]; try discriminate C.
  destruct (Hs tt stq eq_refl) as [_ [Hd | Hc]]; [now left | right].
  destruct (exec_all lib Notebook.program initial) as [| x st'' |];
    simpl in Hc; try contradiction.
  destruct Hc as (k & ev & _ & Hk & Htr & He & Hh & Hr).
  exists x, k, ev. simpl. auto 10.
Qed.

(** The two runs are large terms; once the facts about them are in the
    context, they are treated as unknowns. *)
Ltac forget_runs lib :=
  let HT := fresh in
  let HF := fresh in
  remember (run lib Notebook.program) as T eqn:HT in *;
  remember (finished (discretise lib)) as U eqn:HF in *;
  clear HT HF.

(** Up to the position of any call it makes, a run has made the calls of
    the uninterrupted run. *)
Lemma run_prefix_lookup (lib : Library) (j k : nat) :
  (j < k)%nat ->
  is_Some (final_trace (run lib Notebook.program) !! k) ->
  final_trace (run lib Notebook.program) !! j
  = final_trace (finished (discretise lib)) !! j.
Proof.
  intros Hjk [e He].
  pose proof (notebook_run_cases lib) as Hc. forget_runs lib.
  destruct Hc as [-> | (x & k' & ev & _ & Hk' & Htr & _)]; [reflexivity |].
  rewrite Htr in *. apply lookup_lt_Some in Hk'.
  apply lookup_lt_Some in He.
  rewrite length_app, length_take in He. simpl in He.
  rewrite lookup_app_l by (rewrite length_take; lia).
  apply lookup_take_lt. lia.
Qed.

Lemma run_event_shadow (lib : Library) (k : nat) (ev : event) :
  final_trace (run lib Notebook.program) !! k = Some ev ->
  exists ev',
    final_trace (finished (discretise lib)) !! k = Some ev'
    /\ ev_call ev = ev_call ev' /\ ev_env ev = ev_env ev'
    /\ ev_heap ev = ev_heap ev'.
Proof.
  intros He.
  pose proof (notebook_run_cases lib) as Hc. forget_runs lib.
  destruct Hc as [E | (x & k' & ev' & _ & Hk' & Htr & _)].
  - rewrite E in He. exists ev. auto.
  - rewrite Htr in He. pose proof (lookup_lt_Some _ _ _ Hk') as Hlt.
    apply lookup_snoc_Some in He as [[Hl He] | [Hl <-]].
    + apply lookup_take_Some in He as [He _]. exists ev. auto.
    + rewrite length_take in Hl. replace k with k' by lia. exists ev'. auto.
Qed.

Lemma step_of_call (ev ev' : event) :
  ev_call ev = ev_call ev' -> step_of ev = step_of ev'.
Proof. unfold step_of. now intros ->. Qed.

Lemma run_step_in_pipeline (lib : Library) (k : nat) (s : step) :
  step_of <$> final_trace (run lib Notebook.program) !! k = Some s ->
  pipeline !! k = Some s.
Proof.
  intros H.
  pose proof (run_event_shadow lib k) as Hsh.
  pose proof (finished_steps (discretise lib)) as Hst. forget_runs lib.
  destruct (final_trace T !! k) as [ev |] eqn:He; [| discriminate].
  injection H as <-.
  destruct (Hsh ev eq_refl) as (ev' & Hq & Hc & _).
  rewrite <- Hst, list_lookup_fmap, Hq.
  simpl. f_equal. symmetry. now apply step_of_call.
Qed.

Lemma first_raise_none (lib : Library) (tr : list event) :
  forall k, first_raise_from lib k tr = None ->
  forall j ev, tr !! j = Some ev -> raises lib (k + j) (ev_call ev) = None.
Proof.
  induction tr as [| e tr IH]; intros k H j ev Hj; [discriminate |].
  simpl in H. destruct (raises lib k (ev_call e)) as [x |] eqn:R;
    [discriminate |].
  destruct j as [| j].
  - injection Hj as <-. now rewrite Nat.add_0_r.
  - replace (k + S j)%nat with (S k + j)%nat by lia. now apply IH.
Qed.

Lemma first_raise_some (lib : Library) (tr : list event) :
  forall k k' x, first_raise_from lib k tr = Some (k', x) ->
  exists j ev,
    k' = (k + j)%nat /\ tr !! j = Some ev
    /\ raises lib k' (ev_call ev) = Some x
    /\ forall i ev', (i < j)%nat -> tr !! i = Some ev' ->
         raises lib (k + i) (ev_call ev') = None.
Proof.
  induction tr as [| e tr IH]; intros k k' x H; [discriminate |].
  simpl in H. destruct (raises lib k (ev_call e)) as [y |] eqn:R.
  - injection H as <- <-. exists 0%nat, e.
    rewrite Nat.add_0_r.
    split; [reflexivity |]. split; [reflexivity |]. split; [exact R |].
    intros i ev' Hi. lia.
  - destruct (IH (S k) k' x H) as (j & ev & -> & Hj & Hr & Hb).
    exists (S j), ev.
    split; [lia |]. split; [exact Hj |]. split; [exact Hr |].
    intros i ev' Hi Hev. destruct i as [| i].
    + injection Hev as <-. now rewrite Nat.add_0_r.
    + replace (k + S i)%nat with (S k + i)%nat by lia. apply Hb; [lia | auto].
Qed.

Lemma no_raise_completes (lib : Library) :
  (forall j ev, final_trace (finished (discretise lib)) !! j = Some ev ->
     raises lib j (ev_call ev) = None) ->
  run lib Notebook.program = finished (discretise lib).
Proof.
  intros Hn.
  pose proof (notebook_run_cases lib) as Hc. forget_runs lib.
  destruct Hc as [E | (x & k & ev & _ & Hk & _ & _ & _ & Hr)]; [exact E |].
  rewrite (Hn k ev Hk) in Hr. discriminate Hr.
Qed.

Lemma first_raise_wins (lib : Library) (k : nat) (ev : event) (x : string) :
  final_trace (finished (discretise lib)) !! k = Some ev ->
  raises lib k (ev_call ev) = Some x ->
  (forall j ev', (j < k)%nat ->
     final_trace (finished (discretise lib)) !! j = Some ev' ->
     raises lib j (ev_call ev') = None) ->
  stopped_by (run lib Notebook.program) = Some x
  /\ final_trace (run lib Notebook.program)
     = take k (final_trace (finished (discretise lib))) ++ [threw_at x ev]
  /\ final_env (run lib Notebook.program) = ev_env ev
  /\ final_heap (run lib Notebook.program) = ev_heap ev.
Proof.
  intros Hk Hr Hb.
  pose proof (notebook_answers lib) as Ha.
  pose proof (clean_lookup _ k ev (finished_clean (discretise lib)) Hk) as Hret.
  pose proof (notebook_run_cases lib) as Hc. forget_runs lib.
  assert (Hnot : final_trace T !! k <> Some ev).
  { intros Hev. specialize (Ha k ev Hev). rewrite Hr in Ha.
    unfold returned in Hret. destruct (ev_result ev); discriminate. }
  destruct Hc as [E | (x' & k' & ev' & Hs & Hk' & Htr & He & Hh & Hr')].
  - rewrite E in Hnot. contradiction.
  - pose proof (lookup_lt_Some _ _ _ Hk') as Hlt.
    destruct (Nat.lt_trichotomy k' k) as [Hlt' | [-> | Hgt]].
    + rewrite (Hb k' ev' Hlt' Hk') in Hr'. discriminate Hr'.
    + rewrite Hk in Hk'. injection Hk' as <-.
      rewrite Hr in Hr'. injection Hr' as <-. auto.
    + exfalso. apply Hnot. rewrite Htr.
      apply lookup_app_l_Some. rewrite lookup_take_lt by lia. exact Hk.
Qed.

(** X1.  If the run of the notebook is stopped by an exception, then the
    exception was raised at a call that the uninterrupted run makes too; the
    trace is the uninterrupted trace up to that call, and the namespace and
    the heap are exactly those the uninterrupted run has at that call. *)
Theorem stopped_run_is_cut_run (lib : Library) (x : string) :
  stopped_by (run lib Notebook.program) = Some x ->
  exists k ev,
    final_trace (finished (discretise lib)) !! k = Some ev
    /\ final_trace (run lib Notebook.program)
       = take k (final_trace (finished (discretise lib))) ++ [threw_at x ev]
    /\ final_env (run lib Notebook.program) = ev_env ev
    /\ final_heap (run lib Notebook.program) = ev_heap ev
    /\ raises lib k (ev_call ev) = Some x.
Proof.
  intros Hx.
  assert (C : completed (finished (discretise lib)) = true)
    by (vm_compute; reflexivity).
  pose proof (notebook_run_cases lib) as Hc. forget_runs lib.
  destruct Hc as [E | (x' & k & ev & Hs & Hrest)].
  - rewrite E in Hx. destruct U; discriminate.
  - rewrite Hs in Hx. injection Hx as ->. exists k, ev. exact Hrest.
Qed.

Lemma stopped_run_is_cut_run_witness :
  exists k ev,
    final_trace (finished (fun _ o => o)) !! k = Some ev
    /\ final_trace
         (run (raising "pybamm" "Mesh" "GeometryError" (fun _ o => o))
            Notebook.program)
       = take k (final_trace (finished (fun _ o => o)))
           ++ [threw_at "GeometryError" ev]
    /\ final_env
         (run (raising "pybamm" "Mesh" "GeometryError" (fun _ o => o))
            Notebook.program) = ev_env ev
    /\ final_heap
         (run (raising "pybamm" "Mesh" "GeometryError" (fun _ o => o))
            Notebook.program) = ev_heap ev
    /\ raises (raising "pybamm" "Mesh" "GeometryError" (fun _ o => o)) k
         (ev_call ev) = Some "GeometryError".
Proof.
  apply (stopped_run_is_cut_run
           (raising "pybamm" "Mesh" "GeometryError" (fun _ o => o))
           "GeometryError").
  vm_compute. reflexivity.
Defined.

(** X2.  What the run does against a library is decided by the first call
    of the uninterrupted run that the library makes raise.  If there is
    none, the run is the uninterrupted run.  If it is the call at position
    [k], raising [x], the run is stopped by [x] after exactly [k + 1] calls,
    with the namespace and heap of the uninterrupted run at that call. *)
Theorem run_stops_at_first_raise (lib : Library) :
  match first_raise lib (final_trace (finished (discretise lib))) with
  | None => run lib Notebook.program = finished (discretise lib)
  | Some (k, x) =>
      stopped_by (run lib Notebook.program) = Some x
      /\ length (final_trace (run lib Notebook.program)) = S k
      /\ ev_env <$> final_trace (finished (discretise lib)) !! k
         = Some (final_env (run lib Notebook.program))
      /\ ev_heap <$> final_trace (finished (discretise lib)) !! k
         = Some (final_heap (run lib Notebook.program))
  end.
Proof.
  unfold first_raise.
  pose proof (first_raise_wins lib) as Hw.
  pose proof (no_raise_completes lib) as Hn. forget_runs lib.
  destruct (first_raise_from lib 0 (final_trace U)) as [[k x] |] eqn:F.
  - apply first_raise_some in F as (j & ev & -> & Hj & Hr & Hb).
    rewrite Nat.add_0_l in *.
    destruct (Hw j ev x Hj Hr) as (Hs & Htr & He & Hh).
    { intros i ev' Hi Hev. exact (Hb i ev' Hi Hev). }
    split; [exact Hs |]. split.
    { rewrite Htr, length_app, length_take.
      apply lookup_lt_Some in Hj. cbn [length]. lia. }
    rewrite Hj, He, Hh. split; reflexivity.
  - apply Hn. intros j ev Hj.
    exact (first_raise_none lib _ 0%nat F j ev Hj).
Qed.

(** X3.  Whatever the library does, the steps the run makes are an initial
    segment of the pipeline, in its order: construction, mesh,
    discretisation, solve, post-processing and plots.  No step is skipped or
    reordered by a failure, and a run that completes has made all 37. *)
Theorem steps_are_a_pipeline_prefix (lib : Library) :
  exists n,
    step_of <$> final_trace (run lib Notebook.program) = take n pipeline
    /\ (n <= 37)%nat
    /\ (if completed (run lib Notebook.program) then n = 37%nat
        else (0 < n)%nat /\ stopped_by (run lib Notebook.program) <> None).
Proof.
  assert (C : completed (finished (discretise lib)) = true)
    by (vm_compute; reflexivity).
  assert (L : length (final_trace (finished (discretise lib))) = 37%nat)
    by (vm_compute; reflexivity).
  pose proof (finished_steps (discretise lib)) as Hst.
  pose proof (notebook_run_cases lib) as Hc. forget_runs lib.
  destruct Hc as [E | (x & k & ev & Hs & Hk & Htr & _)].
  - exists 37%nat. rewrite E, Hst, C.
    split; [reflexivity |]. split; [lia | reflexivity].
  - exists (S k). rewrite Htr, fmap_app, fmap_take, Hst.
    pose proof (lookup_lt_Some _ _ _ Hk) as Hlt.
    split.
    + symmetry. apply take_S_r.
      rewrite <- Hst, list_lookup_fmap, Hk. reflexivity.
    + split; [lia |].
      destruct T; try discriminate Hs. cbn [completed].
      split; [lia | rewrite Hs; discriminate].
Qed.

Lemma pipeline_process_model (k : nat) :
  pipeline !! k = Some ProcessModel -> k = 20%nat.
Proof.
  intros H. do 37 (destruct k as [| k]; [first [discriminate H | reflexivity] |]).
  discriminate H.
Qed.

Lemma pipeline_integrate (k : nat) :
  pipeline !! k = Some Integrate -> k = 23%nat.
Proof.
  intros H. do 37 (destruct k as [| k]; [first [discriminate H | reflexivity] |]).
  discriminate H.
Qed.

Lemma pipeline_plot (k : nat) : pipeline !! k = Some Plot -> (25 <= k)%nat.
Proof.
  intros H. do 25 (destruct k as [| k]; [discriminate H |]). lia.
Qed.




(** X5.  Whatever the library does, a call of [process_model] can only be
    the twenty-first call of the run; it is made on the discretisation
    built from the mesh and the finite-volume method, with the model as its
    only argument, and the model it is handed is complete: right-hand side,
    initial conditions, boundary conditions and variables are all set. *)
Theorem process_model_gets_complete_model (lib : Library) (k : nat) :
  step_of <$> final_trace (run lib Notebook.program) !! k = Some ProcessModel ->
  k = 20%nat
  /\ ev_call <$> final_trace (run lib Notebook.program) !! k
     = Some {| callee := VAttr Bound.disc "process_model";
               args := [VRef 0]; kwargs := [] |}
  /\ ev_heap <$> final_trace (run lib Notebook.program) !! k
     = Some [Bound.model_object]
  /\ dom (obj_attrs Bound.model_object)
     = {["rhs"; "initial_conditions"; "boundary_conditions"; "variables"]}.
Proof.
  intros H.
  pose proof (pipeline_process_model k (run_step_in_pipeline lib k _ H)) as ->.
  pose proof (run_event_shadow lib 20) as Hsh.
  assert (Hc : ev_call <$> final_trace (finished (discretise lib)) !! 20%nat
               = Some {| callee := VAttr Bound.disc "process_model";
                         args := [VRef 0]; kwargs := [] |})
    by (vm_compute; reflexivity).
  assert (Hh : ev_heap <$> final_trace (finished (discretise lib)) !! 20%nat
               = Some [Bound.model_object])
    by (vm_compute; reflexivity).
  forget_runs lib.
  destruct (final_trace T !! 20%nat) as [ev |] eqn:He; [| discriminate H].
  destruct (Hsh ev eq_refl) as (ev' & Hq & Hcall & _ & Hheap).
  rewrite Hq in Hc, Hh. cbn [fmap option_fmap option_map] in *.
  rewrite Hcall, Hheap.
  split; [reflexivity |]. split; [exact Hc |]. split; [exact Hh |].
  vm_compute. reflexivity.
Qed.

Lemma process_model_gets_complete_model_witness :
  ev_heap <$> final_trace (run (quiet (fun _ o => o)) Notebook.program) !! 20%nat
  = Some [Bound.model_object].
Proof.
  apply (process_model_gets_complete_model (quiet (fun _ o => o)) 20).
  vm_compute. reflexivity.
Defined.

(** X6.  Whatever the library does, a call of [solve] can only be the
    twenty-fourth call of the run; it is made on the ScipySolver, with the
    model reference and the 100 output times as arguments, and the model it
    is handed is the one the discretisation pass wrote: the solver is never
    run on a model that has not been discretised. *)
Theorem solve_gets_discretised_model (lib : Library) (k : nat) :
  step_of <$> final_trace (run lib Notebook.program) !! k = Some Integrate ->
  k = 23%nat
  /\ ev_call <$> final_trace (run lib Notebook.program) !! k
     = Some {| callee := VAttr Bound.solver "solve";
               args := [VRef 0; Bound.t]; kwargs := [] |}
  /\ ev_heap <$> final_trace (run lib Notebook.program) !! k
     = Some [discretise lib Bound.disc Bound.model_object].
Proof.
  intros H.
  pose proof (pipeline_integrate k (run_step_in_pipeline lib k _ H)) as ->.
  pose proof (run_event_shadow lib 23) as Hsh.
  assert (Hc : ev_call <$> final_trace (finished (discretise lib)) !! 23%nat
               = Some {| callee := VAttr Bound.solver "solve";
                         args := [VRef 0; Bound.t]; kwargs := [] |})
    by (vm_compute; reflexivity).
  assert (Hh : ev_heap <$> final_trace (finished (discretise lib)) !! 23%nat
               = Some [discretise lib Bound.disc Bound.model_object])
    by (vm_compute; reflexivity).
  forget_runs lib.
  destruct (final_trace T !! 23%nat) as [ev |] eqn:He; [| discriminate H].
  destruct (Hsh ev eq_refl) as (ev' & Hq & Hcall & _ & Hheap).
  rewrite Hq in Hc, Hh. cbn [fmap option_fmap option_map] in *.
  rewrite Hcall, Hheap.
  split; [reflexivity |]. split; [exact Hc | exact Hh].
Qed.

Lemma solve_gets_discretised_model_witness :
  ev_heap <$> final_trace (run (quiet (fun _ o => o)) Notebook.program) !! 23%nat
  = Some [(fun _ o => o) Bound.disc Bound.model_object].
Proof.
  apply (solve_gets_discretised_model (quiet (fun _ o => o)) 23).
  vm_compute. reflexivity.
Defined.

(** X7.  Whatever the library does, nothing is plotted unless the
    discretisation pass and the solve have both been called and have both
    returned: a plotting call at position [k] has [process_model] returned
    at position 20 and [solve] returned at position 23 before it. *)
Theorem plots_only_after_solve_returned (lib : Library) (k : nat) :
  step_of <$> final_trace (run lib Notebook.program) !! k = Some Plot ->
  (23 < k)%nat
  /\ (fun ev => (step_of ev, returned ev))
       <$> final_trace (run lib Notebook.program) !! 20%nat
     = Some (ProcessModel, true)
  /\ (fun ev => (step_of ev, returned ev))
       <$> final_trace (run lib Notebook.program) !! 23%nat
     = Some (Integrate, true).
Proof.
  intros H.
  pose proof (pipeline_plot k (run_step_in_pipeline lib k _ H)) as Hk.
  assert (Hs : is_Some (final_trace (run lib Notebook.program) !! k)).
  { destruct (final_trace (run lib Notebook.program) !! k);
      [eexists; reflexivity | discriminate H]. }
  rewrite (run_prefix_lookup lib 20 k), (run_prefix_lookup lib 23 k)
    by (lia || exact Hs).
  split; [lia |]. split; vm_compute; reflexivity.
Qed.

Lemma plots_only_after_solve_returned_witness :
  (fun ev => (step_of ev, returned ev))
    <$> final_trace (run (quiet (fun _ o => o)) Notebook.program) !! 23%nat
  = Some (Integrate, true).
Proof.
  apply (plots_only_after_solve_returned (quiet (fun _ o => o)) 27).
  vm_compute. reflexivity.
Defined.

(** ** Consistency across the cells *)

Lemma constant_denote (F : Type) (const : Q -> F) (u1 u2 : string -> F)
    (neg grad div : F -> F) (s : Symbol) :
  constant s = true ->
  denote F const u1 neg grad div s = denote F const u2 neg grad div s.
Proof.
  induction s as [q | n dm | n dm cs | a IH | a IH | a IH]; simpl; intros H;
    try discriminate; try reflexivity; now rewrite IH.
Qed.

Lemma installed_values_after_setup (d : value -> object -> object) :
  installed_values (final_heap (after_setup d))
  = [Scalar (inject_Z 1); Scalar (inject_Z 0); Scalar (inject_Z 2)].
Proof. vm_compute. reflexivity. Qed.

(** X8.  Every initial and boundary value the set-up cells store in the
    model is a constant: it contains no variable, so it denotes the same
    field whatever the unknowns of the model denote. *)
Theorem installed_conditions_are_constants (d : value -> object -> object)
    (s : Symbol) (F : Type) (const : Q -> F) (u1 u2 : string -> F)
    (neg grad div : F -> F) :
  In s (installed_values (final_heap (after_setup d))) ->
  constant s = true
  /\ denote F const u1 neg grad div s = denote F const u2 neg grad div s.
Proof.
  rewrite installed_values_after_setup. intros H.
  assert (Hc : constant s = true).
  { simpl in H. destruct H as [<- | [<- | [<- | []]]]; reflexivity. }
  split; [exact Hc | now apply constant_denote].
Qed.

Lemma installed_conditions_are_constants_witness :
  constant Bound.rbc = true
  /\ denote (list Z) Poly.const Poly.unknown Poly.neg Poly.deriv Poly.deriv
       Bound.rbc
     = denote (list Z) Poly.const (fun _ => []) Poly.neg Poly.deriv Poly.deriv
         Bound.rbc.
Proof.
  apply (installed_conditions_are_constants (fun _ o => o) Bound.rbc).
  vm_compute. right. right. left. reflexivity.
Defined.

(** X9.  The domain the concentration is declared on is covered by the
    rest of the set-up: "negative particle" is the one key of the geometry,
    of the submesh types and of the spatial methods; the spatial variable of
    the geometry is declared on the same domain, and the point counts are
    keyed by that same spatial variable. *)
Theorem domain_is_covered (d : value -> object -> object) :
  declared_domain <$> ((final_env (after_setup d) !! "c") ≫= as_symbol)
  = Some ["negative particle"]
  /\ dict_keys <$> final_env (finished d) !! "geometry"
     = Some [VStr "negative particle"]
  /\ dict_keys <$> final_env (finished d) !! "submesh_types"
     = Some [VStr "negative particle"]
  /\ dict_keys <$> final_env (finished d) !! "spatial_methods"
     = Some [VStr "negative particle"]
  /\ dict_keys <$> (((final_env (finished d) !! "geometry")
                       ≫= dict_get "negative particle")
                      ≫= dict_get "primary")
     = Some [VSym Bound.r]
  /\ dict_keys <$> final_env (finished d) !! "var_pts" = Some [VSym Bound.r]
  /\ declared_domain Bound.r = ["negative particle"].
Proof.
  repeat split; vm_compute; reflexivity.
Qed.

(** X10.  The dictionaries of the model agree on their keys: the right-hand
    side, the initial conditions and the boundary conditions are keyed by
    one and the same variable, which is the one exported as "Concentration"
    and is named "Concentration"; and the one key under which the last cell
    looks a variable up in the solution is a key of the exported
    variables. *)
Theorem model_dictionaries_agree (d : value -> object -> object) :
  dict_keys <$> attr_at (final_heap (after_setup d)) 0 "rhs"
  = Some [VSym Bound.c]
  /\ dict_keys <$> attr_at (final_heap (after_setup d)) 0 "initial_conditions"
     = Some [VSym Bound.c]
  /\ dict_keys <$> attr_at (final_heap (after_setup d)) 0 "boundary_conditions"
     = Some [VSym Bound.c]
  /\ (attr_at (final_heap (after_setup d)) 0 "variables")
       ≫= dict_get "Concentration"
     = Some (VSym Bound.c)
  /\ declared_name Bound.c = Some "Concentration"
  /\ dict_keys <$> attr_at (final_heap (after_setup d)) 0 "variables"
     = Some [VStr "Concentration"; VStr "Flux"]
  /\ (fun ev => (step_of ev, args (ev_call ev)))
       <$> final_trace (finished d) !! 24%nat
     = Some (PostProcess, [VStr "Concentration"]).
Proof.
  repeat split; vm_compute; reflexivity.
Qed.

Lemma linspace_within (start stop : Q) (num : nat) :
  (start <= stop)%Q ->
  Forall (within start stop) (linspace start stop num).
Proof.
  intros Hle. destruct num as [| [| n]].
  - constructor.
  - constructor; [split; lra | constructor].
  - unfold linspace. replace (S (S n) - 1)%nat with (S n) by lia.
    apply List.Forall_map, List.Forall_forall. intros i Hi.
    apply in_seq in Hi.
    set (m := inject_Z (Z.of_nat (S n))).
    assert (Hm : (0 < m)%Q).
    { unfold m. change 0%Q with (inject_Z 0). rewrite <- Zlt_Qlt. lia. }
    assert (Hi0 : (0 <= inject_Z (Z.of_nat i))%Q).
    { change 0%Q with (inject_Z 0). rewrite <- Zle_Qle. lia. }
    assert (Him : (inject_Z (Z.of_nat i) <= m)%Q).
    { unfold m. rewrite <- Zle_Qle. lia. }
    assert (Hstep : (0 <= (stop - start) / m)%Q).
    { apply Qle_shift_div_l; [exact Hm | lra]. }
    assert (Hfull : (m * ((stop - start) / m) == stop - start)%Q).
    { apply Qmult_div_r. lra. }
    pose proof (Qmult_le_0_compat _ _ Hi0 Hstep) as Hlo.
    pose proof (Qmult_le_compat_r _ _ _ Him Hstep) as Hhi.
    rewrite Hfull in Hhi. split; lra.
Qed.

(** X11.  The solution is only evaluated inside the region it was solved
    on.  The geometry gives the radius the limits 0 and 1; the first curve
    is evaluated at r = 1, the second at 100 radii that all lie between 0
    and 1; the second curve is taken at t = 0.5, which lies between the
    first and the last of the output times handed to the solver, as do all
    of them. *)
Theorem solution_evaluated_inside_solved_region (d : value -> object -> object) :
  limits <$> final_env (finished d) !! "geometry"
  = Some [(inject_Z 0, inject_Z 1)]
  /\ kwargs <$> (ev_call <$> final_trace (finished d) !! 26%nat)
     = Some [("r", VNum (inject_Z 1))]
  /\ within (inject_Z 0) (inject_Z 1) (inject_Z 1)
  /\ kwargs <$> (ev_call <$> final_trace (finished d) !! 31%nat)
     = Some [("t", VNum (1 # 2));
             ("r", VArray (linspace (inject_Z 0) (inject_Z 1) 100))]
  /\ Forall (within (inject_Z 0) (inject_Z 1))
       (linspace (inject_Z 0) (inject_Z 1) 100)
  /\ args <$> (ev_call <$> final_trace (finished d) !! 23%nat)
     = Some [VRef 0; VArray (linspace (inject_Z 0) (inject_Z 1) 100)]
  /\ within (inject_Z 0) (inject_Z 1) (1 # 2).
Proof.
  split; [vm_compute; reflexivity |].
  split; [vm_compute; reflexivity |].
  split; [split; discriminate |].
  split; [vm_compute; reflexivity |].
  split; [apply linspace_within; discriminate |].
  split; [vm_compute; reflexivity |].
  split; discriminate.
Qed.
